(** * newton-pipeline: the NYT "Archive Search" ingestion pipeline

    A shallow embedding of [src/data_loader/ingestion.py]:
    [construct_nyt_archive_search_url], [extract_nyt_archive],
    [filter_nyt_archive] and [stage], together with the parts of the
    Python run time they rely on (subscripting, iteration, exceptions,
    [logging.error], [requests.get], [open] in text mode and
    [csv.DictWriter] with the default "excel" dialect and a pipe
    delimiter).

    Python objects are values of one type [value]; a Python [dict] is an
    association list in insertion order, read by its first binding of a
    key.  The effects of the code (log records, HTTP requests, files)
    live in a [world] that is threaded through a small state-and-exception
    monad [M].

    The libraries are modelled as CPython 3.11 and requests 2.27 or later
    behave on a POSIX system: [raise_for_status] raises for the statuses
    400 to 599, a body that is not JSON makes [json()] raise a
    [RequestException], and text mode leaves LF as it is. *)

From Stdlib Require Import ZArith String Ascii List Bool Lia.
From Stdlib Require Import Decimal DecimalString DecimalPos DecimalZ.
From stdpp Require Import gmap strings.
Import ListNotations.

Set Warnings "-register-all,-notation-for-abbreviation".

Local Open Scope string_scope.
Local Open Scope list_scope.

(* ===================================================================== *)
(** ** Python values and exceptions *)
(* ===================================================================== *)

(** The objects that [json] decoding produces, and that the pipeline
    passes around.  Floating point numbers are left out: no operation
    below looks inside a number. *)
Inductive value : Type :=
| VNone
| VBool (b : bool)
| VInt (n : Z)
| VStr (s : string)
| VList (l : list value)
| VDict (d : list (string * value)).

Definition dict : Type := list (string * value).

(** [d.get(k)]: the first binding of [k]. *)
Fixpoint dict_get (d : dict) (k : string) : option value :=
  match d with
  | [] => None
  | (k', v) :: d' => if String.eqb k' k then Some v else dict_get d' k
  end.

(** The keys of a dict, each once, in insertion order. *)
Fixpoint dict_keys (d : dict) : list string :=
  match d with
  | [] => []
  | (k, _) :: d' =>
      k :: List.filter (fun k' => negb (String.eqb k k')) (dict_keys d')
  end.

Inductive request_error : Type :=
| HTTPError | ConnectionError | Timeout | TooManyRedirects
| JSONDecodeError | OtherRequestError.

Inductive os_error : Type :=
| PermissionError | FileNotFoundError | IsADirectoryError | FileTooLarge.

(** The exceptions the pipeline can meet.  [RequestException] stands for
    the class [requests.RequestException] and its subclasses; [msg] is
    what [str(err)] gives. *)
Inductive exn : Type :=
| KeyError (key : string)
| TypeError
| ValueError (wrong_fields : list string)
| OSError (e : os_error)
| RequestException (kind : request_error) (msg : string).

(** The outcome of evaluating an expression: a value or a raised
    exception. *)
Inductive result (A : Type) : Type :=
| Ok (a : A)
| Raise (e : exn).
Arguments Ok {A} a.
Arguments Raise {A} e.

Definition result_bind {A B} (r : result A) (k : A -> result B) : result B :=
  match r with
  | Ok a => k a
  | Raise e => Raise e
  end.

Declare Scope result_scope.
Delimit Scope result_scope with result.
Notation "'do' x <- r ; k" := (result_bind r (fun x => k))
  (at level 10, x name, r at level 100, k at level 200) : result_scope.

(** [v[k]] for a string key [k]: only a dict can be subscripted by a
    string; a missing key raises [KeyError(k)], any other object raises
    [TypeError]. *)
Definition getitem (v : value) (k : string) : result value :=
  match v with
  | VDict d =>
      match dict_get d k with
      | Some x => Ok x
      | None => Raise (KeyError k)
      end
  | _ => Raise TypeError
  end.

(** [for x in v]: the items a [for] clause visits, or [TypeError] when
    [v] is not iterable. *)
Definition py_iter (v : value) : result (list value) :=
  match v with
  | VList l => Ok l
  | VDict d => Ok (map VStr (dict_keys d))
  | VStr s => Ok (map (fun c => VStr (String c EmptyString)) (list_ascii_of_string s))
  | _ => Raise TypeError
  end.

(** A list comprehension [[f(x) for x in l]]: items are evaluated left
    to right and the first exception ends the evaluation. *)
Fixpoint comprehension {A B} (f : A -> result B) (l : list A) : result (list B) :=
  match l with
  | [] => Ok []
  | x :: l' =>
      (do y <- f x; do ys <- comprehension f l'; Ok (y :: ys))%result
  end.

(** [str(n)] for an [int]. *)
Definition str_int (n : Z) : string := NilZero.string_of_int (Z.to_int n).

(** [repr(k)] for the keys this module subscripts with: letters and
    underscores only, so the text is the key between single quotes. *)
Definition repr_key (k : string) : string := "'" +:+ k +:+ "'".

(* ===================================================================== *)
(** ** The world: log, network, file system *)
(* ===================================================================== *)

Inductive log_level : Type := DEBUG | INFO | WARNING | ERROR | CRITICAL.

Record log_record : Type := LogRecord {
  levelname : log_level;
  message : string
}.

Record request : Type := Request {
  req_url : string;
  req_params : list (string * string)
}.

(** What [res.json()] finds in the body. *)
Inductive body : Type :=
| JsonBody (v : value)
| NotJson (msg : string).

Record response : Type := Response {
  status_code : Z;
  reason : string;
  resp_url : string;
  resp_body : body
}.

(** What one call of [requests.get] comes to: a response (of any status),
    or an exception. *)
Inductive get_outcome : Type :=
| Responds (r : response)
| Fails (e : exn).

(** The state around the program.  [w_log] and [w_sent] grow, [w_files]
    maps a path to the text of the file there.  The other fields are the
    environment: how the server answers the [n]-th request, which paths
    cannot be opened for writing (and with which error), and the largest
    size the file at a path may reach, if there is one (a quota, a full
    device): a write that would pass it fails. *)
Record world : Type := World {
  w_log : list log_record;
  w_sent : list request;
  w_files : gmap string string;
  w_server : nat -> request -> get_outcome;
  w_open_error : string -> option os_error;
  w_size_limit : string -> option nat
}.

Definition set_log (l : list log_record) (w : world) : world :=
  World l (w_sent w) (w_files w) (w_server w) (w_open_error w) (w_size_limit w).
Definition set_sent (s : list request) (w : world) : world :=
  World (w_log w) s (w_files w) (w_server w) (w_open_error w) (w_size_limit w).
Definition set_files (f : gmap string string) (w : world) : world :=
  World (w_log w) (w_sent w) f (w_server w) (w_open_error w) (w_size_limit w).

(** Computations: state passing over [world], with exceptions. *)
Definition M (A : Type) : Type := world -> result A * world.

Definition ret {A} (a : A) : M A := fun w => (Ok a, w).
Definition raise {A} (e : exn) : M A := fun w => (Raise e, w).
Definition lift {A} (r : result A) : M A := fun w => (r, w).
Definition bind {A B} (m : M A) (k : A -> M B) : M B :=
  fun w =>
    match m w with
    | (Ok a, w') => k a w'
    | (Raise e, w') => (Raise e, w')
    end.

Declare Scope M_scope.
Delimit Scope M_scope with M.
Notation "'do' x <- m ; k" := (bind m (fun x => k))
  (at level 10, x name, m at level 100, k at level 200) : M_scope.

(** [try: m except <class> as err: h(err)], where [catches] says which
    exceptions belong to the class. *)
Definition try_except {A} (m : M A) (catches : exn -> bool) (h : exn -> M A) : M A :=
  fun w =>
    match m w with
    | (Ok a, w') => (Ok a, w')
    | (Raise e, w') => if catches e then h e w' else (Raise e, w')
    end.

(** [logging.error(msg)] under the module's [basicConfig(level=INFO)]:
    the record is emitted. *)
Definition logging_error (msg : string) : M unit :=
  fun w => (Ok tt, set_log (w_log w ++ [LogRecord ERROR msg]) w).

(* ===================================================================== *)
(** ** URL builder *)
(* ===================================================================== *)

Definition construct_nyt_archive_search_url (year month : Z) (version : string) : string :=
  "https://api.nytimes.com/svc/archive/" +:+ version +:+ "/" +:+ str_int year
    +:+ "/" +:+ str_int month +:+ ".json".

Definition default_version : string := "v1".

(* ===================================================================== *)
(** ** Archive fetcher *)
(* ===================================================================== *)

(** [requests.get(url, params=...)]: one request goes out, and the server
    decides the outcome. *)
Definition requests_get (url : string) (params : list (string * string)) : M response :=
  fun w =>
    let rq := Request url params in
    let w' := set_sent (w_sent w ++ [rq]) w in
    match w_server w (length (w_sent w)) rq with
    | Responds r => (Ok r, w')
    | Fails e => (Raise e, w')
    end.

(** [res.raise_for_status()]: [HTTPError] for a status from 400 to 599,
    nothing otherwise. *)
Definition raise_for_status (r : response) : result unit :=
  if (400 <=? status_code r)%Z && (status_code r <? 500)%Z then
    Raise (RequestException HTTPError
             (str_int (status_code r) +:+ " Client Error: " +:+ reason r
                +:+ " for url: " +:+ resp_url r))
  else if (500 <=? status_code r)%Z && (status_code r <? 600)%Z then
    Raise (RequestException HTTPError
             (str_int (status_code r) +:+ " Server Error: " +:+ reason r
                +:+ " for url: " +:+ resp_url r))
  else Ok tt.

(** [res.json()]: the decoded body, or [requests.JSONDecodeError] (a
    [RequestException]) when the body is not JSON. *)
Definition response_json (r : response) : result value :=
  match resp_body r with
  | JsonBody v => Ok v
  | NotJson msg => Raise (RequestException JSONDecodeError msg)
  end.

Definition is_RequestException (e : exn) : bool :=
  match e with
  | RequestException _ _ => true
  | _ => false
  end.

(** A function that falls off its end returns [None]: the handler's
    value is [VNone]. *)
Definition extract_nyt_archive (api_key : string) (year month : Z) : M value :=
  let url := construct_nyt_archive_search_url year month default_version in
  try_except
    (do r <- requests_get url [("api-key", api_key)];
     do _ <- lift (raise_for_status r);
     lift (response_json r))%M
    is_RequestException
    (fun err =>
       match err with
       | RequestException _ msg =>
           (do _ <- logging_error ("Bad API request to NYT 'Archive Search': '" +:+ msg +:+ "'");
            ret VNone)%M
       | _ => raise err
       end).

(* ===================================================================== *)
(** ** Filter / flatten *)
(* ===================================================================== *)

Definition is_KeyError (e : exn) : bool :=
  match e with
  | KeyError _ => true
  | _ => false
  end.

Section Filter.

(** The module [transformation] is imported by [ingestion.py]; the two
    functions taken from it are parameters here: pure functions from
    the raw field to its canonical form. *)
Variable nytas_transform_date : value -> value.
Variable nytas_transform_author : value -> value.

(** The dict display of the comprehension: keys and values are
    evaluated in the order written. *)
Definition flatten_article (article : value) : result value :=
  (do headline <- getitem article "headline";
   do main <- getitem headline "main";
   do pub_date <- getitem article "pub_date";
   let publication_date := nytas_transform_date pub_date in
   do byline <- getitem article "byline";
   do original <- getitem byline "original";
   let author := nytas_transform_author original in
   do news_desk <- getitem article "news_desk";
   do web_url <- getitem article "web_url";
   Ok (VDict [("headline", main);
              ("publication_date", publication_date);
              ("author", author);
              ("news_desk", news_desk);
              ("url", web_url)]))%result.

Definition flatten_archive (res : value) : result value :=
  (do response <- getitem res "response";
   do articles <- getitem response "docs";
   do items <- py_iter articles;
   do records <- comprehension flatten_article items;
   Ok (VList records))%result.

Definition filter_error_message (key : string) : string :=
  "Unable to process `res` input (reconsider input structure): '"
    +:+ repr_key key +:+ "'".

Definition filter_nyt_archive (res : value) : M value :=
  try_except
    (lift (flatten_archive res))
    is_KeyError
    (fun err =>
       match err with
       | KeyError key => (do _ <- logging_error (filter_error_message key); ret VNone)%M
       | _ => raise err
       end).

End Filter.

(* ===================================================================== *)
(** ** Text files *)
(* ===================================================================== *)

Definition CR : ascii := "013"%char.
Definition LF : ascii := "010"%char.

(** The platform's line separator.  The model is of a POSIX system. *)
Definition os_linesep : string := String LF EmptyString.

(** A file opened in text mode with the default [newline=None] writes
    each LF of the text as [os.linesep]. *)
Fixpoint translate_newlines (s : string) : string :=
  match s with
  | EmptyString => EmptyString
  | String c s' =>
      if Ascii.eqb c LF then os_linesep +:+ translate_newlines s'
      else String c (translate_newlines s')
  end.

Definition file_text (w : world) (path : string) : string :=
  default EmptyString (w_files w !! path).

Definition within_limit (limit : option nat) (size : nat) : bool :=
  match limit with
  | None => true
  | Some n => (size <=? n)%nat
  end.

(** [open(path, 'w')]: the file is created or truncated, unless the path
    cannot be opened. *)
Definition open_w (path : string) : M unit :=
  fun w =>
    match w_open_error w path with
    | Some e => (Raise (OSError e), w)
    | None => (Ok tt, set_files (<[path := EmptyString]> (w_files w)) w)
    end.

(** [fp.write(s)] on the file opened at [path]: the text is appended; a
    write that would pass the size limit fails and leaves the file as it
    was. *)
Definition fp_write (path : string) (s : string) : M unit :=
  fun w =>
    let text := file_text w path +:+ translate_newlines s in
    if within_limit (w_size_limit w path) (String.length text)
    then (Ok tt, set_files (<[path := text]> (w_files w)) w)
    else (Raise (OSError FileTooLarge), w).

(* ===================================================================== *)
(** ** csv.writer and csv.DictWriter *)
(* ===================================================================== *)

(** The dialect of [csv.DictWriter(fp, fieldnames, delimiter="|")]: the
    "excel" dialect (double quote as quote character, doubled inside a
    quoted field, minimal quoting, CR LF after each record) with the
    pipe as delimiter. *)
Definition delimiter : ascii := "|"%char.
Definition quotechar : ascii := "034"%char.
Definition lineterminator : string := String CR (String LF EmptyString).

Fixpoint string_mem (c : ascii) (s : string) : bool :=
  match s with
  | EmptyString => false
  | String c' s' => Ascii.eqb c c' || string_mem c s'
  end.

(** The characters that make the writer quote a field. *)
Definition special (c : ascii) : bool :=
  Ascii.eqb c delimiter || Ascii.eqb c quotechar || string_mem c lineterminator.

(** The record under construction: the text so far and the number of
    fields joined into it. *)
Record writer_state : Type := WriterState {
  rec : string;
  num_fields : nat
}.

Definition addch (r : string) (c : ascii) : string := r +:+ String c EmptyString.

(** First pass of [join_append] over the field: does it need quotes? *)
Fixpoint scan_field (field : string) (quoted : bool) : bool :=
  match field with
  | EmptyString => quoted
  | String c field' => scan_field field' (if special c then true else quoted)
  end.

(** Second pass: the characters are copied into the record, a quote
    character twice. *)
Fixpoint copy_field (field : string) (r : string) : string :=
  match field with
  | EmptyString => r
  | String c field' =>
      copy_field field' (if Ascii.eqb c quotechar then addch (addch r c) c else addch r c)
  end.

Definition join_append (st : writer_state) (field : string) (quoted : bool) : writer_state :=
  let quoted := scan_field field quoted in
  let r := rec st in
  let r := if (0 <? num_fields st)%nat then addch r delimiter else r in
  let r := if quoted then addch r quotechar else r in
  let r := copy_field field r in
  let r := if quoted then addch r quotechar else r in
  WriterState r (S (num_fields st)).

Section Csv.

(** Python's [str] on an object that is neither [None] nor a [str]. *)
Variable py_str : value -> string.

(** The text of a field: empty for [None], the string itself for a
    [str], [str(field)] otherwise. *)
Definition field_text (field : value) : string :=
  match field with
  | VNone => EmptyString
  | VStr s => s
  | _ => py_str field
  end.

(** [writer.writerow(fields)]: the line handed to [fp.write].  A record
    of one empty field is written as a pair of quotes. *)
Definition csv_writerow (fields : list value) : string :=
  let st := fold_left (fun st field => join_append st (field_text field) false)
              fields (WriterState EmptyString 0) in
  let st :=
    if (0 <? num_fields st)%nat && (String.length (rec st) =? 0)%nat
    then join_append (WriterState (rec st) (Nat.pred (num_fields st))) EmptyString true
    else st in
  rec st +:+ lineterminator.

(** [DictWriter._dict_to_list] with [extrasaction='raise'] and
    [restval='']. *)
Definition dict_to_list (fieldnames : list string) (rowdict : dict) : result (list value) :=
  let wrong_fields :=
    List.filter (fun k => negb (existsb (String.eqb k) fieldnames)) (dict_keys rowdict) in
  match wrong_fields with
  | [] => Ok (map (fun key => default (VStr EmptyString) (dict_get rowdict key)) fieldnames)
  | _ => Raise (ValueError wrong_fields)
  end.

Definition DictWriter_writerow (path : string) (fieldnames : list string) (rowdict : dict) : M unit :=
  (do fields <- lift (dict_to_list fieldnames rowdict);
   fp_write path (csv_writerow fields))%M.

(** [header = dict(zip(fieldnames, fieldnames)); writerow(header)]. *)
Definition DictWriter_writeheader (path : string) (fieldnames : list string) : M unit :=
  DictWriter_writerow path fieldnames (map (fun f => (f, VStr f)) fieldnames).

(** [writerows(map(self._dict_to_list, rowdicts))]: the rows are
    converted and written one after the other. *)
Fixpoint DictWriter_writerows (path : string) (fieldnames : list string) (rowdicts : list dict) : M unit :=
  match rowdicts with
  | [] => ret tt
  | rowdict :: rowdicts' =>
      (do _ <- DictWriter_writerow path fieldnames rowdict;
       DictWriter_writerows path fieldnames rowdicts')%M
  end.

(* ===================================================================== *)
(** ** Stager *)
(* ===================================================================== *)

(** The [with] block closes the file on the way out, also when an
    exception passes through; nothing is caught. *)
Definition stage (records : list dict) (field_names : list string) (path : string) : M unit :=
  (do _ <- open_w path;
   do _ <- DictWriter_writeheader path field_names;
   DictWriter_writerows path field_names records)%M.

End Csv.

(** The field names the pipeline stages with. *)
Definition flat_field_names : list string :=
  ["headline"; "publication_date"; "author"; "news_desk"; "url"].

(* ===================================================================== *)
(** ** The staging file format, stated directly *)
(* ===================================================================== *)

(** The format the writer is proved to produce (theorems below): the
    fields of a record joined by the delimiter, a field that holds a
    special character between quotes with its quotes doubled, a record of
    one empty field as a pair of quotes, CR LF after each record. *)

Fixpoint needs_quotes (s : string) : bool :=
  match s with
  | EmptyString => false
  | String c s' => special c || needs_quotes s'
  end.

Fixpoint double_quotes (s : string) : string :=
  match s with
  | EmptyString => EmptyString
  | String c s' =>
      if Ascii.eqb c quotechar then String c (String c (double_quotes s'))
      else String c (double_quotes s')
  end.

Definition quoted (s : string) : string :=
  String quotechar (double_quotes s +:+ String quotechar EmptyString).

Definition quote_field (s : string) : string :=
  if needs_quotes s then quoted s else s.

(** [delimiter.join(cells)]. *)
Fixpoint join_fields (cells : list string) : string :=
  match cells with
  | [] => EmptyString
  | [c] => c
  | c :: cells' => c +:+ String delimiter (join_fields cells')
  end.

Definition csv_record (cells : list string) : string :=
  match cells with
  | [EmptyString] => quoted EmptyString
  | _ => join_fields (map quote_field cells)
  end +:+ lineterminator.

Fixpoint csv_text (rows : list (list string)) : string :=
  match rows with
  | [] => EmptyString
  | row :: rows' => csv_record row +:+ csv_text rows'
  end.

(** The cells of a record under a list of field names: the text of the
    value of each name, empty where the record has no such key. *)
Definition record_cells (py_str : value -> string) (field_names : list string) (r : dict) : list string :=
  map (fun key => field_text py_str (default (VStr EmptyString) (dict_get r key))) field_names.

Definition staging_text (py_str : value -> string) (field_names : list string) (records : list dict) : string :=
  csv_text (field_names :: map (record_cells py_str field_names) records).

(** No key of the record is outside the field names. *)
Definition no_extra_keys (field_names : list string) (r : dict) : bool :=
  forallb (fun k => existsb (String.eqb k) field_names) (dict_keys r).

(* ===================================================================== *)
(** ** Reading a staging file back *)
(* ===================================================================== *)

(** Modelled from the spec: the repository has no reader for the staging
    file; the spec speaks of "re-parsing the resulting file with the same
    delimiter and field order".  The reader below is the counterpart of
    the writer for the same dialect: the file is read line by line, with
    line ends left as they are (a line ends after LF, after CR LF, or
    after a CR that no LF follows), and each character, then an
    end-of-line mark, goes through the state machine of Python's
    [csv.reader]. *)

Inductive parser_state : Type :=
| START_RECORD | START_FIELD | IN_FIELD
| IN_QUOTED_FIELD | QUOTE_IN_QUOTED_FIELD | EAT_CRNL.

Inductive input : Type :=
| Ch (c : ascii)
| EOL.

Record reader : Type := Reader {
  state : parser_state;
  field : string;
  fields : list string
}.

Definition parse_reset : reader := Reader START_RECORD EmptyString [].

Definition parse_save_field (rd : reader) : reader :=
  Reader (state rd) EmptyString (fields rd ++ [field rd]).

Definition parse_add_char (rd : reader) (c : ascii) : reader :=
  Reader (state rd) (addch (field rd) c) (fields rd).

Definition set_state (st : parser_state) (rd : reader) : reader :=
  Reader st (field rd) (fields rd).

Definition is_newline (i : input) : bool :=
  match i with
  | Ch c => Ascii.eqb c LF || Ascii.eqb c CR
  | EOL => false
  end.

(** One step of the parser; [None] is [csv.Error]. *)
Definition parse_start_field (rd : reader) (i : input) : option reader :=
  match i with
  | EOL => Some (set_state START_RECORD (parse_save_field rd))
  | Ch c =>
      if is_newline i then Some (set_state EAT_CRNL (parse_save_field rd))
      else if Ascii.eqb c quotechar then Some (set_state IN_QUOTED_FIELD rd)
      else if Ascii.eqb c delimiter then Some (set_state START_FIELD (parse_save_field rd))
      else Some (set_state IN_FIELD (parse_add_char rd c))
  end.

Definition parse_process_char (rd : reader) (i : input) : option reader :=
  match state rd with
  | START_RECORD =>
      match i with
      | EOL => Some rd
      | Ch _ =>
          if is_newline i then Some (set_state EAT_CRNL rd)
          else parse_start_field rd i
      end
  | START_FIELD => parse_start_field rd i
  | IN_FIELD =>
      match i with
      | EOL => Some (set_state START_RECORD (parse_save_field rd))
      | Ch c =>
          if is_newline i then Some (set_state EAT_CRNL (parse_save_field rd))
          else if Ascii.eqb c delimiter then Some (set_state START_FIELD (parse_save_field rd))
          else Some (parse_add_char rd c)
      end
  | IN_QUOTED_FIELD =>
      match i with
      | EOL => Some rd
      | Ch c =>
          if Ascii.eqb c quotechar then Some (set_state QUOTE_IN_QUOTED_FIELD rd)
          else Some (parse_add_char rd c)
      end
  | QUOTE_IN_QUOTED_FIELD =>
      match i with
      | EOL => Some (set_state START_RECORD (parse_save_field rd))
      | Ch c =>
          if Ascii.eqb c quotechar then Some (set_state IN_QUOTED_FIELD (parse_add_char rd c))
          else if Ascii.eqb c delimiter then Some (set_state START_FIELD (parse_save_field rd))
          else if is_newline i then Some (set_state EAT_CRNL (parse_save_field rd))
          else Some (set_state IN_FIELD (parse_add_char rd c))
      end
  | EAT_CRNL =>
      match i with
      | EOL => Some (set_state START_RECORD rd)
      | Ch _ => if is_newline i then Some rd else None
      end
  end.

(** Where the reading of the file stands within the current line. *)
Inductive line_phase : Type :=
| LineStart   (* nothing of the line read yet *)
| InLine      (* inside a line *)
| AfterCR.    (* a CR was read: the line ends here, or after an LF *)

Record reading : Type := Reading {
  rd : reader;
  phase : line_phase;
  rows : list (list string)
}.

Definition parser_state_eqb (a b : parser_state) : bool :=
  match a, b with
  | START_RECORD, START_RECORD | START_FIELD, START_FIELD | IN_FIELD, IN_FIELD
  | IN_QUOTED_FIELD, IN_QUOTED_FIELD
  | QUOTE_IN_QUOTED_FIELD, QUOTE_IN_QUOTED_FIELD | EAT_CRNL, EAT_CRNL => true
  | _, _ => false
  end.

(** The end of a line: the end-of-line mark is parsed; a parser back at
    the start of a record has finished a row. *)
Definition end_line (x : reading) : option reading :=
  match parse_process_char (rd x) EOL with
  | None => None
  | Some r =>
      if parser_state_eqb (state r) START_RECORD
      then Some (Reading parse_reset LineStart (rows x ++ [fields r]))
      else Some (Reading r LineStart (rows x))
  end.

Definition read_plain (x : reading) (c : ascii) : option reading :=
  match parse_process_char (rd x) (Ch c) with
  | None => None
  | Some r =>
      if Ascii.eqb c LF then end_line (Reading r InLine (rows x))
      else if Ascii.eqb c CR then Some (Reading r AfterCR (rows x))
      else Some (Reading r InLine (rows x))
  end.

Definition read_char (x : reading) (c : ascii) : option reading :=
  match phase x with
  | AfterCR =>
      if Ascii.eqb c LF then read_plain x c
      else match end_line x with
           | None => None
           | Some x' => read_plain x' c
           end
  | _ => read_plain x c
  end.

Fixpoint read_chars (x : reading) (s : string) : option reading :=
  match s with
  | EmptyString => Some x
  | String c s' =>
      match read_char x c with
      | None => None
      | Some x' => read_chars x' s'
      end
  end.

(** The end of the file: a line left open is ended; a quoted field left
    open, or text left in the field buffer, closes a last row. *)
Definition read_end (x : reading) : option (list (list string)) :=
  match (match phase x with LineStart => Some x | _ => end_line x end) with
  | None => None
  | Some x' =>
      if negb (String.length (field (rd x')) =? 0)%nat
         || parser_state_eqb (state (rd x')) IN_QUOTED_FIELD
      then Some (rows x' ++ [fields (parse_save_field (rd x'))])
      else Some (rows x')
  end.

Definition csv_reader (text : string) : option (list (list string)) :=
  match read_chars (Reading parse_reset LineStart []) text with
  | None => None
  | Some x => read_end x
  end.

Fixpoint list_string_eqb (a b : list string) : bool :=
  match a, b with
  | [], [] => true
  | x :: a', y :: b' => String.eqb x y && list_string_eqb a' b'
  | _, _ => false
  end.

(** The records of a staging file: the first row must be the field
    names, in order; each further row must have one field per name and
    becomes the record that maps each name to its field. *)
Fixpoint rows_to_records (field_names : list string) (data : list (list string)) : option (list dict) :=
  match data with
  | [] => Some []
  | row :: data' =>
      if (length row =? length field_names)%nat then
        match rows_to_records field_names data' with
        | Some rs => Some (combine field_names (map VStr row) :: rs)
        | None => None
        end
      else None
  end.

Definition parse_staging (field_names : list string) (text : string) : option (list dict) :=
  match csv_reader text with
  | Some (header :: data) =>
      if list_string_eqb header field_names then rows_to_records field_names data
      else None
  | _ => None
  end.

(** A flat record: its keys are among the five field names, and each of
    the five is bound to a string. *)
Definition is_str (v : option value) : bool :=
  match v with
  | Some (VStr _) => true
  | _ => false
  end.

Definition is_flat_record (r : dict) : bool :=
  no_extra_keys flat_field_names r
  && forallb (fun f => is_str (dict_get r f)) flat_field_names.

(* ===================================================================== *)
(** ** Vocabulary of the properties *)
(* ===================================================================== *)





(** Reading a decimal numeral back. *)
Definition parse_int (s : string) : option Z :=
  option_map Z.of_int (NilZero.int_of_string s).

Definition has_key (d : dict) (k : string) : bool :=
  match dict_get d k with
  | Some _ => true
  | None => false
  end.

(** The mapping under key [k] of [d], when there is one. *)
Definition sub_mapping (d : dict) (k : string) : option dict :=
  match dict_get d k with
  | Some (VDict m) => Some m
  | _ => None
  end.

(** An article that has every required key: a mapping with [pub_date],
    [news_desk] and [web_url], a mapping with [main] under [headline] and
    a mapping with [original] under [byline]. *)
Definition well_formed_article (article : value) : bool :=
  match article with
  | VDict d =>
      match sub_mapping d "headline", sub_mapping d "byline" with
      | Some h, Some b =>
          has_key h "main" && has_key d "pub_date" && has_key b "original"
          && has_key d "news_desk" && has_key d "web_url"
      | _, _ => false
      end
  | _ => false
  end.

(** A mapping lacks [k], or has a mapping under [k] that lacks [k']. *)
Definition lacks_nested (d : dict) (k k' : string) : bool :=
  match dict_get d k with
  | None => true
  | Some (VDict m) => negb (has_key m k')
  | Some _ => false
  end.

(** An article that is missing a required key. *)
Definition missing_required_key (article : value) : bool :=
  match article with
  | VDict d =>
      lacks_nested d "headline" "main" || negb (has_key d "pub_date")
      || lacks_nested d "byline" "original"
      || negb (has_key d "news_desk") || negb (has_key d "web_url")
  | _ => false
  end.

(** An article made of mappings: a mapping whose [headline] and [byline],
    where present, are mappings. *)
Definition is_mapping_or_absent (v : option value) : bool :=
  match v with
  | None | Some (VDict _) => true
  | Some _ => false
  end.

Definition nested_mapping (article : value) : bool :=
  match article with
  | VDict d =>
      is_mapping_or_absent (dict_get d "headline")
      && is_mapping_or_absent (dict_get d "byline")
  | _ => false
  end.

(** The first required key, in the order the code reads them, that an
    article made of mappings is missing. *)
Definition first_missing_key (article : value) : option string :=
  match article with
  | VDict d =>
      if negb (has_key d "headline") then Some "headline"
      else if lacks_nested d "headline" "main" then Some "main"
      else if negb (has_key d "pub_date") then Some "pub_date"
      else if negb (has_key d "byline") then Some "byline"
      else if lacks_nested d "byline" "original" then Some "original"
      else if negb (has_key d "news_desk") then Some "news_desk"
      else if negb (has_key d "web_url") then Some "web_url"
      else None
  | _ => None
  end.

(** The offending key of a batch: the first missing key of the first
    article that is missing one. *)
Fixpoint offending_key (docs : list value) : option string :=
  match docs with
  | [] => None
  | article :: docs' =>
      match first_missing_key article with
      | Some key => Some key
      | None => offending_key docs'
      end
  end.

Definition required_keys : list string :=
  ["headline"; "main"; "pub_date"; "byline"; "original"; "news_desk"; "web_url"].

(** What the handler of [filter_nyt_archive] leaves: [None] returned and
    one ERROR record naming the key. *)
Definition schema_mismatch (key : string) (w : world) : result value * world :=
  (Ok VNone, set_log (w_log w ++ [LogRecord ERROR (filter_error_message key)]) w).

(** The failures of a fetch as the spec lists them: a status outside
    200..299, a timeout, a connection error. *)
Definition fetch_failed (o : get_outcome) : bool :=
  match o with
  | Responds r => negb ((200 <=? status_code r)%Z && (status_code r <? 300)%Z)
  | Fails (RequestException Timeout _) => true
  | Fails (RequestException ConnectionError _) => true
  | Fails _ => false
  end.

(** The failures that make [requests] raise: an exception out of
    [requests.get], or a status from 400 to 599. *)
Definition request_raises (o : get_outcome) : bool :=
  match o with
  | Responds r => (400 <=? status_code r)%Z && (status_code r <? 600)%Z
  | Fails e => is_RequestException e
  end.

Definition archive_request (api_key : string) (year month : Z) : request :=
  Request (construct_nyt_archive_search_url year month default_version)
          [("api-key", api_key)].

(** A field that the writer leaves as it is. *)
Definition plain (s : string) : bool := negb (needs_quotes s).

(** The file the words "joined by the pipe delimiter" describe when read
    to the letter: no quoting at all. *)
Definition plain_record (cells : list string) : string :=
  join_fields cells +:+ lineterminator.

Fixpoint plain_text (rows : list (list string)) : string :=
  match rows with
  | [] => EmptyString
  | row :: rows' => plain_record row +:+ plain_text rows'
  end.

Definition plain_staging_text (py_str : value -> string) (field_names : list string) (records : list dict) : string :=
  plain_text (field_names :: map (record_cells py_str field_names) records).

(** Two records agree field for field. *)
Definition same_fields (r p : dict) : Prop :=
  forall f, dict_get p f = dict_get r f.

(** Worlds and a [str] for the examples: no log, nothing sent, no files,
    every path writable without limit; [str] on the scalars. *)
Definition quiet_world (server : nat -> request -> get_outcome) : world :=
  World [] [] ∅ server (fun _ => None) (fun _ => None).

Definition unreachable_server : nat -> request -> get_outcome :=
  fun _ _ => Fails (RequestException ConnectionError "Connection refused").

Definition str_scalar (v : value) : string :=
  match v with
  | VInt n => str_int n
  | VBool true => "True"
  | VBool false => "False"
  | VNone => "None"
  | VStr s => s
  | _ => EmptyString
  end.

(** The world in which the file at [path] holds [t], everything else as
    in [w]. *)
Definition with_file (path t : string) (w : world) : world :=
  set_files (<[path := t]> (w_files w)) w.

(** What the writer puts before the field numbered [n] of a record. *)
Definition separator (n : nat) : string :=
  if (0 <? n)%nat then String delimiter EmptyString else EmptyString.

(** [v.k1.k2...]: the value reached from [v] through nested mappings. *)
Fixpoint lookup_path (v : value) (keys : list string) : option value :=
  match keys with
  | [] => Some v
  | k :: keys' =>
      match v with
      | VDict d =>
          match dict_get d k with
          | Some x => lookup_path x keys'
          | None => None
          end
      | _ => None
      end
  end.

(** A row that the writer writes with no quotes at all. *)
Definition written_as_is (cells : list string) : bool :=
  forallb plain cells && negb (list_string_eqb cells [EmptyString]).

(** The parser is at the start of a field: no character of the field
    read, the line not suspended on a CR. *)
Definition at_field_start (st : parser_state) (ph : line_phase) : Prop :=
  (st = START_RECORD \/ st = START_FIELD) /\ ph <> AfterCR.

(** The parser has read a field: inside it, after its closing quote, or
    still at its start when the field is empty and bare. *)
Definition after_field (st0 : parser_state) (ph0 : line_phase) (s : string)
    (st : parser_state) (ph : line_phase) : Prop :=
  (st = IN_FIELD /\ ph = InLine)
  \/ (st = QUOTE_IN_QUOTED_FIELD /\ ph = InLine)
  \/ (s = EmptyString /\ st = st0 /\ ph = ph0).

(** The record read back from the row of [r]. *)
Definition read_back (py_str : value -> string) (names : list string) (r : dict) : dict :=
  combine names (map VStr (record_cells py_str names r)).

(** Sample data: the article of the spec's end-to-end scenario, and
    variants of it. *)
Definition article_with (headline byline : value) : value :=
  VDict [("headline", headline);
         ("pub_date", VStr "2023-05-01T00:00:00Z");
         ("byline", byline);
         ("news_desk", VStr "Science");
         ("web_url", VStr "https://x/a")].

Definition article_a : value :=
  article_with (VDict [("main", VStr "A")]) (VDict [("original", VStr "By Jane Doe")]).

Definition article_no_original : value :=
  article_with (VDict [("main", VStr "B")]) (VDict []).

Definition article_null_byline : value :=
  article_with (VDict [("main", VStr "C")]) VNone.

Definition payload (docs : list value) : value :=
  VDict [("response", VDict [("docs", VList docs)])].

Definition article_piped : value :=
  article_with (VDict [("main", VStr "A|B")]) (VDict [("original", VStr "By Jane Doe")]).

(** The flat record of an article of the samples under the transformers
    that leave the field as it is. *)
Definition record_with (headline author : string) : dict :=
  [("headline", VStr headline);
   ("publication_date", VStr "2023-05-01T00:00:00Z");
   ("author", VStr author);
   ("news_desk", VStr "Science");
   ("url", VStr "https://x/a")].

Definition eol : string := lineterminator.

(** A world in which [path] cannot be opened for writing. *)
Definition read_only_world (path : string) : world :=
  World [] [] ∅ unreachable_server
    (fun p => if String.eqb p path then Some PermissionError else None)
    (fun _ => None).

(** A world in which the file at [path] may hold [n] characters at most. *)
Definition limited_world (path : string) (n : nat) : world :=
  World [] [] ∅ unreachable_server
    (fun _ => None)
    (fun p => if String.eqb p path then Some n else None).

(** A transformer for the examples: the field as it is. *)
Definition as_is (v : value) : value := v.

(** A server that answers 300 with a JSON body. *)
Definition multiple_choices_server : nat -> request -> get_outcome :=
  fun _ rq => Responds (Response 300 "Multiple Choices" (req_url rq) (JsonBody (VDict []))).

Definition not_found_server : nat -> request -> get_outcome :=
  fun _ rq => Responds (Response 404 "Not Found" (req_url rq) (NotJson "Expecting value")).

(* ===================================================================== *)
(** ** Database connection helper *)
(* ===================================================================== *)

(** [src/db/utils.py].  What one call of [psycopg2.connect] comes to: a
    connection (its handle), or [psycopg2.OperationalError]. *)
Inductive connect_outcome : Type :=
| Connected (handle : nat)
| Refused (msg : string).

(** The database side of the world: the keyword arguments of the calls
    of [connect] made so far, and how the server answers the [n]-th. *)
Record db_world : Type := DbWorld {
  db_attempts : list (list (string * string));
  db_server : nat -> list (string * string) -> connect_outcome
}.


Definition default_host : string := "publications-db".
Definition default_port : Z := 5432.


(* ===================================================================== *)
(** ** Further vocabulary *)
(* ===================================================================== *)

Definition is_mapping (v : value) : bool :=
  match v with
  | VDict _ => true
  | _ => false
  end.

(** The dicts of a list of dicts. *)
Fixpoint as_records (items : list value) : option (list dict) :=
  match items with
  | [] => Some []
  | VDict d :: items' => option_map (cons d) (as_records items')
  | _ :: _ => None
  end.

Definition records_of (v : value) : option (list dict) :=
  match v with
  | VList items => as_records items
  | _ => None
  end.


(** The world after the one request of a fetch. *)
Definition after_request (api_key : string) (year month : Z) (w : world) : world :=
  set_sent (w_sent w ++ [archive_request api_key year month]) w.

(** The text two lists of records are staged as is the same. *)
Definition same_cells (py_str : value -> string) (field_names : list string)
    (records1 records2 : list dict) : Prop :=
  map (record_cells py_str field_names) records1
  = map (record_cells py_str field_names) records2.

(** More sample data. *)
Definition null_body_server : nat -> request -> get_outcome :=
  fun _ rq => Responds (Response 200 "OK" (req_url rq) (JsonBody VNone)).

Definition faulty_client : nat -> request -> get_outcome :=
  fun _ _ => Fails TypeError.

Definition refusing_db : db_world :=
  DbWorld [] (fun _ _ => Refused "could not translate host name").

(* ===================================================================== *)
(** * Properties *)
(* ===================================================================== *)

(** ** Strings *)

#[local] Arguments String.append !s1 s2.

Lemma append_nil_r (s : string) : s +:+ EmptyString = s.
Proof. induction s as [|c s IH]; simpl; [reflexivity | now rewrite IH]. Qed.

Lemma append_assoc (s1 s2 s3 : string) : (s1 +:+ s2) +:+ s3 = s1 +:+ (s2 +:+ s3).
Proof. induction s1 as [|c s1 IH]; simpl; [reflexivity | now rewrite IH]. Qed.

Lemma length_append (s1 s2 : string) :
  String.length (s1 +:+ s2) = (String.length s1 + String.length s2)%nat.
Proof. induction s1 as [|c s1 IH]; simpl; [reflexivity | now rewrite IH]. Qed.

Lemma addch_append (s1 s2 : string) (c : ascii) :
  addch s1 c +:+ s2 = s1 +:+ String c s2.
Proof. unfold addch. now rewrite append_assoc. Qed.

(** ** URL builder *)

Lemma to_int_nonnil (z : Z) : Z.to_int z <> Pos Nil /\ Z.to_int z <> Neg Nil.
Proof.
  destruct z as [|p|p]; simpl; split; try discriminate;
    intros H; injection H as H; now apply Unsigned.to_uint_nonnil in H.
Qed.

Lemma parse_int_str_int (z : Z) : parse_int (str_int z) = Some z.
Proof.
  unfold parse_int, str_int.
  destruct (to_int_nonnil z) as [Hp Hn].
  rewrite NilZero.isi by assumption.
  simpl. now rewrite DecimalZ.of_to.
Qed.


(** ** Filter / flatten *)



Section FilterProperties.

Variable nytas_transform_date : value -> value.
Variable nytas_transform_author : value -> value.

Local Notation flatten_article := (flatten_article nytas_transform_date nytas_transform_author).
Local Notation flatten_archive := (flatten_archive nytas_transform_date nytas_transform_author).
Local Notation filter_nyt_archive := (filter_nyt_archive nytas_transform_date nytas_transform_author).

Lemma flatten_well_formed (article : value) :
  well_formed_article article = true ->
  exists d h b main pub_date original news_desk web_url,
    article = VDict d
    /\ dict_get d "headline" = Some (VDict h) /\ dict_get h "main" = Some main
    /\ dict_get d "pub_date" = Some pub_date
    /\ dict_get d "byline" = Some (VDict b) /\ dict_get b "original" = Some original
    /\ dict_get d "news_desk" = Some news_desk
    /\ dict_get d "web_url" = Some web_url
    /\ flatten_article article
       = Ok (VDict [("headline", main);
                    ("publication_date", nytas_transform_date pub_date);
                    ("author", nytas_transform_author original);
                    ("news_desk", news_desk);
                    ("url", web_url)]).
Proof.
  destruct article as [| | | | |d]; simpl; try discriminate.
  unfold sub_mapping, has_key, flatten_article, getitem.
  destruct (dict_get d "headline") as [[| | | | |h]|] eqn:Eh; try discriminate.
  destruct (dict_get d "byline") as [[| | | | |b]|] eqn:Eb; try discriminate.
  destruct (dict_get h "main") as [main|] eqn:Em; try discriminate.
  destruct (dict_get d "pub_date") as [pub_date|] eqn:Ep; try discriminate.
  destruct (dict_get b "original") as [original|] eqn:Eo; try discriminate.
  destruct (dict_get d "news_desk") as [news_desk|] eqn:En; try discriminate.
  destruct (dict_get d "web_url") as [web_url|] eqn:Eu; try discriminate.
  intros _. exists d, h, b, main, pub_date, original, news_desk, web_url.
  repeat split; try assumption.
  simpl. rewrite Em. simpl. rewrite Eo. reflexivity.
Qed.

(** An article made of mappings flattens when it has every required key
    and raises [KeyError] on its first missing key otherwise. *)
Lemma flatten_nested_mapping (article : value) :
  nested_mapping article = true ->
  match first_missing_key article with
  | Some key => flatten_article article = Raise (KeyError key)
                /\ missing_required_key article = true
  | None => (exists r, flatten_article article = Ok r)
            /\ missing_required_key article = false
  end.
Proof.
  destruct article as [| | | | |d]; simpl; try discriminate.
  unfold is_mapping_or_absent, lacks_nested, has_key, flatten_article, getitem.
  destruct (dict_get d "headline") as [[| | | | |h]|] eqn:Eh; simpl; try discriminate;
    [| intros _; split; reflexivity].
  destruct (dict_get h "main") as [main|] eqn:Em; simpl;
    [| intros _; split; reflexivity].
  destruct (dict_get d "pub_date") as [pub_date|] eqn:Ep; simpl;
    [| intros _; split; reflexivity].
  destruct (dict_get d "byline") as [[| | | | |b]|] eqn:Eb; simpl; try discriminate;
    [| intros _; split; reflexivity].
  destruct (dict_get b "original") as [original|] eqn:Eo; simpl;
    [| intros _; split; reflexivity].
  destruct (dict_get d "news_desk") as [news_desk|] eqn:En; simpl;
    [| intros _; split; reflexivity].
  destruct (dict_get d "web_url") as [web_url|] eqn:Eu; simpl;
    [| intros _; split; reflexivity].
  intros _. split; [eexists; reflexivity | reflexivity].
Qed.

Lemma first_missing_key_required (article : value) (key : string) :
  first_missing_key article = Some key -> In key required_keys.
Proof.
  destruct article as [| | | | |d]; simpl; try discriminate.
  repeat match goal with
         | |- context [if ?b then _ else _] => destruct b
         end;
    intros H; try discriminate; injection H as <-; simpl; auto 10.
Qed.

(** The comprehension over articles made of mappings stops at the
    offending key of the batch. *)
Lemma comprehension_offending_key (docs : list value) :
  forallb nested_mapping docs = true ->
  match offending_key docs with
  | Some key => comprehension flatten_article docs = Raise (KeyError key)
                /\ existsb missing_required_key docs = true
  | None => (exists rs, comprehension flatten_article docs = Ok rs)
            /\ existsb missing_required_key docs = false
  end.
Proof.
  induction docs as [|a docs IH]; simpl.
  - intros _. split; [now exists [] | reflexivity].
  - intros H. apply andb_prop in H as [Ha Hdocs].
    pose proof (flatten_nested_mapping a Ha) as Hflat.
    destruct (first_missing_key a) as [key|].
    + destruct Hflat as [-> ->]. split; reflexivity.
    + destruct Hflat as [[r ->] ->]. simpl.
      specialize (IH Hdocs).
      destruct (offending_key docs) as [key|].
      * destruct IH as [-> ->]. split; reflexivity.
      * destruct IH as [[rs ->] ->]. split; [eexists; reflexivity | reflexivity].
Qed.

Lemma filter_from_flatten (res : value) (w : world) :
  filter_nyt_archive res w
  = match flatten_archive res with
    | Ok v => (Ok v, w)
    | Raise (KeyError key) => schema_mismatch key w
    | Raise e => (Raise e, w)
    end.
Proof.
  unfold filter_nyt_archive, try_except, lift.
  destruct (flatten_archive res) as [v|[]]; reflexivity.
Qed.


(** C1 (as amended): when the articles under [response.docs] are made of
    mappings (each article a mapping, its [headline] and [byline]
    mappings where present) and at least one of them is missing a
    required key, the call returns [None] for the whole batch, never a
    list, and logs one ERROR record that names the offending key: the
    first missing key of the first article that is missing one. *)
Theorem filter_missing_key (res response : value) (docs : list value) (w : world) :
  getitem res "response" = Ok response ->
  getitem response "docs" = Ok (VList docs) ->
  forallb nested_mapping docs = true ->
  existsb missing_required_key docs = true ->
  exists key,
    offending_key docs = Some key
    /\ In key required_keys
    /\ filter_nyt_archive res w = schema_mismatch key w.
Proof.
  intros Hres Hdocs Hshape Hmiss.
  pose proof (comprehension_offending_key docs Hshape) as Hcomp.
  destruct (offending_key docs) as [key|] eqn:Hkey.
  - destruct Hcomp as [Hraise _]. exists key. split; [reflexivity |]. split.
    + clear -Hkey. induction docs as [|a docs IH]; simpl in Hkey; [discriminate |].
      destruct (first_missing_key a) as [k|] eqn:Ha; [| auto].
      injection Hkey as ->. eapply first_missing_key_required, Ha.
    + rewrite filter_from_flatten.
      unfold flatten_archive. rewrite Hres. simpl. rewrite Hdocs. simpl.
      now rewrite Hraise.
  - destruct Hcomp as [_ Hnone]. congruence.
Qed.


End FilterProperties.


Lemma filter_missing_key_witness :
  exists key,
    offending_key [article_a; article_no_original] = Some key
    /\ In key required_keys
    /\ filter_nyt_archive as_is as_is (payload [article_a; article_no_original])
         (quiet_world unreachable_server)
       = schema_mismatch key (quiet_world unreachable_server).
Proof.
  apply (filter_missing_key as_is as_is (payload [article_a; article_no_original])
           (VDict [("docs", VList [article_a; article_no_original])])
           [article_a; article_no_original] (quiet_world unreachable_server));
    reflexivity.
Defined.

(** C1, as first stated, fails: the second article is missing
    [byline.original], but the [byline] of the first is [None], and
    subscripting it raises [TypeError], which [except KeyError] lets
    through: the call raises, returns nothing and logs nothing. *)
Lemma filter_type_error_escapes :
  existsb missing_required_key [article_null_byline; article_no_original] = true
  /\ filter_nyt_archive as_is as_is (payload [article_null_byline; article_no_original])
       (quiet_world unreachable_server)
     = (Raise TypeError, quiet_world unreachable_server).
Proof. split; reflexivity. Qed.


(** ** Archive fetcher *)

(** C4 (as amended): when [requests.get] raises a [RequestException]
    (timeout, connection error, ...) or the response has a status from
    400 to 599, the call logs one ERROR record that carries the text of
    the failure and returns [None]; it raises nothing and has sent
    exactly one request. *)
Theorem extract_failure_is_absence (api_key : string) (year month : Z) (w : world) :
  request_raises (w_server w (length (w_sent w)) (archive_request api_key year month)) = true ->
  exists msg,
    extract_nyt_archive api_key year month w
    = (Ok VNone,
       set_log (w_log w ++ [LogRecord ERROR
                              ("Bad API request to NYT 'Archive Search': '" +:+ msg +:+ "'")])
         (set_sent (w_sent w ++ [archive_request api_key year month]) w)).
Proof.
  unfold extract_nyt_archive, try_except, bind, requests_get, lift, archive_request.
  destruct (w_server w _ _) as [r|e]; simpl.
  - unfold raise_for_status. intros Hst.
    destruct ((400 <=? status_code r)%Z && (status_code r <? 500)%Z) eqn:H4; simpl.
    + eexists. reflexivity.
    + destruct ((500 <=? status_code r)%Z && (status_code r <? 600)%Z) eqn:H5; simpl.
      * eexists. reflexivity.
      * exfalso. lia.
  - destruct e; simpl; try discriminate. intros _. eexists. reflexivity.
Qed.

Lemma extract_failure_is_absence_witness :
  exists msg,
    extract_nyt_archive "secret" 2023 13 (quiet_world not_found_server)
    = (Ok VNone,
       set_log [LogRecord ERROR ("Bad API request to NYT 'Archive Search': '" +:+ msg +:+ "'")]
         (set_sent [archive_request "secret" 2023 13] (quiet_world not_found_server))).
Proof.
  apply (extract_failure_is_absence "secret" 2023 13 (quiet_world not_found_server)).
  reflexivity.
Defined.

(** C4, as first stated, fails: 300 is a status outside 200..299, but
    [raise_for_status] raises for 400..599 only, so the body of the
    response is decoded and returned, and nothing is logged. *)
Lemma extract_returns_body_of_300 :
  fetch_failed (multiple_choices_server 0 (archive_request "secret" 2023 5)) = true
  /\ extract_nyt_archive "secret" 2023 5 (quiet_world multiple_choices_server)
     = (Ok (VDict []),
        set_sent [archive_request "secret" 2023 5] (quiet_world multiple_choices_server)).
Proof. split; reflexivity. Qed.

(** ** Text files *)

Lemma translate_newlines_posix (s : string) : translate_newlines s = s.
Proof.
  induction s as [|c s IH]; simpl; [reflexivity |].
  destruct (Ascii.eqb c LF) eqn:E.
  - apply Ascii.eqb_eq in E. subst c. unfold os_linesep. simpl. now rewrite IH.
  - now rewrite IH.
Qed.

Lemma with_file_twice (path t t' : string) (w : world) :
  with_file path t' (with_file path t w) = with_file path t' w.
Proof. unfold with_file, set_files. simpl. now rewrite insert_insert_eq. Qed.

Lemma file_text_with_file (path t : string) (w : world) :
  file_text (with_file path t w) path = t.
Proof. unfold file_text, with_file. simpl. now rewrite lookup_insert_eq. Qed.

Lemma open_w_ok (path : string) (w : world) :
  w_open_error w path = None -> open_w path w = (Ok tt, with_file path EmptyString w).
Proof. unfold open_w. now intros ->. Qed.

Lemma open_w_fails (path : string) (w : world) (e : os_error) :
  w_open_error w path = Some e -> open_w path w = (Raise (OSError e), w).
Proof. unfold open_w. now intros ->. Qed.

Lemma fp_write_with_file (path s t : string) (w : world) :
  fp_write path s (with_file path t w)
  = if within_limit (w_size_limit w path) (String.length (t +:+ s))
    then (Ok tt, with_file path (t +:+ s) w)
    else (Raise (OSError FileTooLarge), with_file path t w).
Proof.
  unfold fp_write. rewrite file_text_with_file, translate_newlines_posix.
  change (w_size_limit (with_file path t w) path) with (w_size_limit w path).
  destruct (within_limit _ _); [| reflexivity].
  f_equal. apply with_file_twice.
Qed.

Lemma within_limit_prefix (limit : option nat) (s1 s2 : string) :
  within_limit limit (String.length (s1 +:+ s2)) = true ->
  within_limit limit (String.length s1) = true.
Proof.
  destruct limit as [n|]; simpl; [| reflexivity].
  rewrite length_append. intros H.
  apply Nat.leb_le in H. apply Nat.leb_le. lia.
Qed.

(** ** The writer produces the staging format *)

Lemma scan_field_needs_quotes (s : string) (q : bool) :
  scan_field s q = q || needs_quotes s.
Proof.
  revert q. induction s as [|c s IH]; intros q; simpl.
  - now rewrite orb_false_r.
  - rewrite IH. destruct (special c), q; reflexivity.
Qed.

Lemma copy_field_double_quotes (s r : string) :
  copy_field s r = r +:+ double_quotes s.
Proof.
  revert r. induction s as [|c s IH]; intros r; simpl.
  - now rewrite append_nil_r.
  - rewrite IH. destruct (Ascii.eqb c quotechar); now rewrite !addch_append.
Qed.

Lemma double_quotes_plain (s : string) :
  needs_quotes s = false -> double_quotes s = s.
Proof.
  induction s as [|c s IH]; simpl; [reflexivity |].
  unfold special. intros H.
  apply orb_false_elim in H as [Hc Hs].
  apply orb_false_elim in Hc as [Hc _]. apply orb_false_elim in Hc as [_ Hq].
  rewrite Hq. now rewrite IH.
Qed.

Lemma join_append_unquoted (st : writer_state) (s : string) :
  join_append st s false
  = WriterState (rec st +:+ separator (num_fields st) +:+ quote_field s)
                (S (num_fields st)).
Proof.
  unfold join_append, quote_field, quoted, separator.
  rewrite scan_field_needs_quotes. simpl.
  f_equal.
  destruct (needs_quotes s) eqn:E;
    rewrite copy_field_double_quotes; [| rewrite (double_quotes_plain s E)];
    destruct (0 <? num_fields st)%nat; unfold addch;
    rewrite ?append_assoc; simpl; rewrite ?append_nil_r; reflexivity.
Qed.

Lemma join_fields_cons (c : string) (cells : list string) :
  cells <> [] ->
  join_fields (c :: cells) = c +:+ String delimiter (join_fields cells).
Proof. destruct cells; [congruence | reflexivity]. Qed.

Lemma fold_join_append (cells : list string) (st : writer_state) :
  cells <> [] ->
  fold_left (fun st s => join_append st s false) cells st
  = WriterState
      (rec st +:+ separator (num_fields st) +:+ join_fields (map quote_field cells))
      (num_fields st + length cells).
Proof.
  revert st. induction cells as [|c cells IH]; intros st Hne; [congruence |].
  simpl fold_left. rewrite join_append_unquoted.
  destruct cells as [|c' cells].
  - simpl. f_equal. lia.
  - rewrite IH by easy.
    cbn [rec num_fields]. f_equal; [| simpl; lia].
    change (map quote_field (c :: c' :: cells))
      with (quote_field c :: map quote_field (c' :: cells)).
    rewrite join_fields_cons by easy.
    unfold separator at 2. simpl Nat.ltb.
    now rewrite !append_assoc.
Qed.

Lemma quote_field_empty (s : string) : quote_field s = EmptyString -> s = EmptyString.
Proof.
  unfold quote_field, quoted. destruct (needs_quotes s); [discriminate | auto].
Qed.

Lemma join_fields_empty (cells : list string) :
  join_fields cells = EmptyString -> cells = [] \/ cells = [EmptyString].
Proof.
  destruct cells as [|c [|c' cells]]; simpl.
  - auto.
  - intros ->. auto.
  - destruct c; discriminate.
Qed.

Lemma length_zero_empty (s : string) : (String.length s =? 0)%nat = true <-> s = EmptyString.
Proof. destruct s; simpl; split; intros; congruence. Qed.

Section WriterProperties.

Variable py_str : value -> string.

Local Notation field_text := (field_text py_str).
Local Notation csv_writerow := (csv_writerow py_str).

Lemma fold_field_text (fields : list value) (st : writer_state) :
  fold_left (fun st f => join_append st (field_text f) false) fields st
  = fold_left (fun st s => join_append st s false) (map field_text fields) st.
Proof.
  revert st. induction fields as [|f fields IH]; intros st; simpl; [reflexivity | apply IH].
Qed.

(** The line the writer hands to [fp.write] is the record of the format. *)
Lemma csv_writerow_record (fields : list value) :
  csv_writerow fields = csv_record (map field_text fields).
Proof.
  unfold csv_writerow. rewrite fold_field_text.
  set (cells := map field_text fields).
  destruct cells as [|c cells'] eqn:Ecells.
  - reflexivity.
  - rewrite fold_join_append by easy.
    cbn [rec num_fields separator Nat.ltb Nat.leb String.append].
    change (0 + length (c :: cells'))%nat with (S (length cells')).
    cbn [Nat.ltb Nat.leb andb].
    destruct (String.length (join_fields (map quote_field (c :: cells'))) =? 0)%nat eqn:Elen.
    + apply length_zero_empty in Elen.
      destruct (join_fields_empty _ Elen) as [H|H]; [discriminate |].
      injection H as Hc Hrest.
      apply quote_field_empty in Hc. subst c.
      destruct cells'; [| discriminate].
      reflexivity.
    + unfold csv_record.
      destruct c as [|a c]; [| reflexivity].
      destruct cells'; [discriminate | reflexivity].
Qed.

End WriterProperties.

(** ** DictWriter *)

Lemma filter_none {A} (P : A -> bool) (l : list A) :
  forallb P l = true -> List.filter (fun x => negb (P x)) l = [].
Proof.
  induction l as [|x l IH]; simpl; [reflexivity |].
  intros H. apply andb_prop in H as [Hx Hl]. rewrite Hx. simpl. auto.
Qed.

Lemma filter_some {A} (P : A -> bool) (l : list A) :
  forallb P l = false -> List.filter (fun x => negb (P x)) l <> [].
Proof.
  induction l as [|x l IH]; simpl; [discriminate |].
  destruct (P x); simpl; [assumption | discriminate].
Qed.

Lemma dict_keys_bound (d : dict) (k : string) :
  In k (dict_keys d) -> In k (map fst d).
Proof.
  induction d as [|[k' v] d IH]; simpl; [auto |].
  intros [H|H]; [auto |].
  apply filter_In in H as [H _]. auto.
Qed.

Lemma existsb_eqb_In (k : string) (names : list string) :
  existsb (String.eqb k) names = true <-> In k names.
Proof.
  rewrite existsb_exists. split.
  - intros [x [Hin Heq]]. apply String.eqb_eq in Heq. now subst.
  - intros H. exists k. split; [assumption | apply String.eqb_refl].
Qed.

Lemma header_get (names : list string) (key : string) :
  In key names -> dict_get (map (fun f => (f, VStr f)) names) key = Some (VStr key).
Proof.
  induction names as [|n names IH]; simpl; [contradiction |].
  intros H. destruct (String.eqb n key) eqn:E.
  - apply String.eqb_eq in E. now subst.
  - destruct H as [H|H]; [subst; now rewrite String.eqb_refl in E | auto].
Qed.

Lemma header_no_extra_keys (names : list string) :
  no_extra_keys names (map (fun f => (f, VStr f)) names) = true.
Proof.
  unfold no_extra_keys. apply forallb_forall. intros k Hk.
  apply existsb_eqb_In. apply dict_keys_bound in Hk.
  rewrite map_map in Hk. simpl in Hk. now rewrite map_id in Hk.
Qed.

Section StageProperties.

Variable py_str : value -> string.

Local Notation field_text := (field_text py_str).
Local Notation record_cells := (record_cells py_str).
Local Notation staging_text := (staging_text py_str).
Local Notation DictWriter_writerow := (DictWriter_writerow py_str).
Local Notation DictWriter_writerows := (DictWriter_writerows py_str).
Local Notation DictWriter_writeheader := (DictWriter_writeheader py_str).
Local Notation stage := (stage py_str).

Lemma header_cells (names : list string) :
  record_cells names (map (fun f => (f, VStr f)) names) = names.
Proof.
  unfold record_cells.
  erewrite map_ext_in; [apply map_id |].
  intros key Hkey. simpl. now rewrite header_get.
Qed.

Lemma dict_to_list_ok (names : list string) (r : dict) :
  no_extra_keys names r = true ->
  dict_to_list names r
  = Ok (map (fun key => default (VStr EmptyString) (dict_get r key)) names).
Proof.
  unfold no_extra_keys, dict_to_list. intros H.
  now rewrite (filter_none _ _ H).
Qed.

Lemma dict_to_list_extra (names : list string) (r : dict) :
  no_extra_keys names r = false ->
  exists wrong, dict_to_list names r = Raise (ValueError wrong).
Proof.
  unfold no_extra_keys, dict_to_list. intros H.
  apply filter_some in H.
  destruct (List.filter _ _) as [|k ks]; [congruence |].
  eexists. reflexivity.
Qed.

Lemma writerow_ok (path : string) (names : list string) (r : dict) (t : string) (w : world) :
  no_extra_keys names r = true ->
  DictWriter_writerow path names r (with_file path t w)
  = if within_limit (w_size_limit w path)
         (String.length (t +:+ csv_record (record_cells names r)))
    then (Ok tt, with_file path (t +:+ csv_record (record_cells names r)) w)
    else (Raise (OSError FileTooLarge), with_file path t w).
Proof.
  intros H. unfold DictWriter_writerow, bind, lift.
  rewrite (dict_to_list_ok _ _ H).
  rewrite fp_write_with_file, csv_writerow_record, map_map.
  reflexivity.
Qed.

(** Whatever the record, writing it changes the file at [path] only. *)
Lemma writerow_any (path : string) (names : list string) (r : dict) (t : string) (w : world) :
  exists res t', DictWriter_writerow path names r (with_file path t w)
                 = (res, with_file path t' w).
Proof.
  destruct (no_extra_keys names r) eqn:H.
  - rewrite (writerow_ok _ _ _ _ _ H). destruct (within_limit _ _); eauto.
  - destruct (dict_to_list_extra _ _ H) as [wrong Hw].
    unfold DictWriter_writerow, bind, lift. rewrite Hw. eauto.
Qed.

Lemma writerows_any (path : string) (names : list string) (records : list dict) (t : string) (w : world) :
  exists res t', DictWriter_writerows path names records (with_file path t w)
                 = (res, with_file path t' w).
Proof.
  revert t. induction records as [|r records IH]; intros t; simpl.
  - unfold ret. eauto.
  - unfold bind. destruct (writerow_any path names r t w) as (res & t' & ->).
    destruct res as [[]|e]; [apply IH | eauto].
Qed.

Lemma writerows_ok (path : string) (names : list string) (records : list dict) (t : string) (w : world) :
  forallb (no_extra_keys names) records = true ->
  within_limit (w_size_limit w path) (String.length t) = true ->
  exists t',
    DictWriter_writerows path names records (with_file path t w)
    = (if within_limit (w_size_limit w path)
            (String.length (t +:+ csv_text (map (record_cells names) records)))
       then Ok tt else Raise (OSError FileTooLarge),
       with_file path t' w)
    /\ (within_limit (w_size_limit w path)
          (String.length (t +:+ csv_text (map (record_cells names) records))) = true ->
        t' = t +:+ csv_text (map (record_cells names) records)).
Proof.
  revert t. induction records as [|r records IH]; intros t Hall Ht; simpl.
  - rewrite append_nil_r, Ht. exists t. unfold ret. split; reflexivity.
  - apply andb_prop in Hall as [Hr Hall].
    unfold bind. rewrite (writerow_ok _ _ _ _ _ Hr).
    rewrite <- append_assoc.
    destruct (within_limit (w_size_limit w path)
                (String.length (t +:+ csv_record (record_cells names r)))) eqn:E1.
    + apply IH; assumption.
    + exists t. split.
      * destruct (within_limit _ (String.length ((t +:+ _) +:+ _))) eqn:E2; [| reflexivity].
        apply within_limit_prefix in E2. congruence.
      * intros E2. apply within_limit_prefix in E2. congruence.
Qed.

(** Once the text of the rows written so far passes the limit, the
    write that passes it fails, whatever follows. *)
Lemma writerows_overflow (path : string) (names : list string) (good rest : list dict)
    (t : string) (w : world) :
  forallb (no_extra_keys names) good = true ->
  within_limit (w_size_limit w path) (String.length t) = true ->
  within_limit (w_size_limit w path)
    (String.length (t +:+ csv_text (map (record_cells names) good))) = false ->
  exists t',
    DictWriter_writerows path names (good ++ rest) (with_file path t w)
    = (Raise (OSError FileTooLarge), with_file path t' w).
Proof.
  revert t. induction good as [|r good IH]; intros t Hall Ht Hover; simpl in *.
  - rewrite append_nil_r in Hover. congruence.
  - apply andb_prop in Hall as [Hr Hall].
    unfold bind. rewrite (writerow_ok _ _ _ _ _ Hr).
    destruct (within_limit (w_size_limit w path)
                (String.length (t +:+ csv_record (record_cells names r)))) eqn:E1.
    + apply IH; try assumption. now rewrite append_assoc.
    + eauto.
Qed.

Lemma stage_open (records : list dict) (names : list string) (path : string) (w : world) :
  w_open_error w path = None ->
  stage records names path w
  = (do _ <- DictWriter_writeheader path names;
     DictWriter_writerows path names records)%M (with_file path EmptyString w).
Proof.
  intros H. unfold stage, bind at 1. now rewrite (open_w_ok _ _ H).
Qed.

(** Whatever the records, a call that opens the file changes the file at
    [path] only. *)
Lemma stage_any (records : list dict) (names : list string) (path : string) (w : world) :
  w_open_error w path = None ->
  exists res t', stage records names path w = (res, with_file path t' w).
Proof.
  intros H. rewrite (stage_open _ _ _ _ H). unfold bind.
  destruct (writerow_any path names (map (fun f => (f, VStr f)) names) EmptyString w)
    as (res & t' & Hh).
  unfold DictWriter_writeheader. rewrite Hh.
  destruct res as [[]|e]; [apply writerows_any | eauto].
Qed.

Lemma stage_spec (records : list dict) (names : list string) (path : string) (w : world) :
  w_open_error w path = None ->
  forallb (no_extra_keys names) records = true ->
  exists t',
    stage records names path w
    = (if within_limit (w_size_limit w path) (String.length (staging_text names records))
       then Ok tt else Raise (OSError FileTooLarge),
       with_file path t' w)
    /\ (within_limit (w_size_limit w path) (String.length (staging_text names records)) = true ->
        t' = staging_text names records).
Proof.
  intros Hopen Hall. rewrite (stage_open _ _ _ _ Hopen). unfold bind.
  unfold DictWriter_writeheader.
  rewrite (writerow_ok _ _ _ _ _ (header_no_extra_keys names)), header_cells.
  unfold staging_text. simpl csv_text. simpl String.append at 1 2.
  destruct (within_limit (w_size_limit w path) (String.length (csv_record names))) eqn:E1.
  - apply writerows_ok; assumption.
  - exists EmptyString. split.
    + destruct (within_limit _ (String.length (_ +:+ _))) eqn:E2; [| reflexivity].
      apply within_limit_prefix in E2. congruence.
    + intros E2. apply within_limit_prefix in E2. congruence.
Qed.

Lemma quote_field_plain (s : string) : plain s = true -> quote_field s = s.
Proof.
  unfold plain, quote_field. now destruct (needs_quotes s).
Qed.

Lemma csv_record_as_is (cells : list string) :
  written_as_is cells = true -> csv_record cells = plain_record cells.
Proof.
  unfold written_as_is. intros H. apply andb_prop in H as [Hplain Hne].
  assert (Hmap : map quote_field cells = cells).
  { rewrite <- (map_id cells) at 2. apply map_ext_in. intros s Hs.
    apply quote_field_plain. rewrite forallb_forall in Hplain. auto. }
  unfold csv_record, plain_record.
  destruct cells as [|[|a c] [|c' cells']]; try discriminate; now rewrite Hmap.
Qed.

Lemma csv_text_as_is (rows : list (list string)) :
  forallb written_as_is rows = true -> csv_text rows = plain_text rows.
Proof.
  induction rows as [|row rows IH]; simpl; [reflexivity |].
  intros H. apply andb_prop in H as [Hrow Hrows].
  now rewrite (csv_record_as_is _ Hrow), IH.
Qed.

(** A call that can open and write the file, on records without extra
    keys, leaves the text of the format there. *)
Lemma stage_succeeds (records : list dict) (names : list string) (path : string) (w : world) :
  w_open_error w path = None ->
  forallb (no_extra_keys names) records = true ->
  within_limit (w_size_limit w path) (String.length (staging_text names records)) = true ->
  stage records names path w = (Ok tt, with_file path (staging_text names records) w).
Proof.
  intros Hopen Hall Hfit.
  destruct (stage_spec _ _ _ _ Hopen Hall) as [t' [Hst Ht']].
  rewrite Hst, Hfit. now rewrite (Ht' Hfit).
Qed.

(** C6 (as amended): when the destination can be opened and written and
    no record has a key outside the field names, [stage] leaves at the
    destination, whatever was there before, the header record and then
    one record per input record, in order, each ended by CR LF: the
    header holds the field names and a record holds its values in the
    order of the field names (empty for [None] and for a missing key),
    joined by the pipe, where a name or value that contains a pipe, a
    double quote, CR or LF stands between double quotes with its double
    quotes doubled and a lone empty field is written as two double
    quotes.  When no row needs quotes the text is the plain pipe-joined
    lines. *)
Theorem stage_writes_format (records : list dict) (field_names : list string) (path : string) (w : world) :
  w_open_error w path = None ->
  forallb (no_extra_keys field_names) records = true ->
  within_limit (w_size_limit w path)
    (String.length (staging_text field_names records)) = true ->
  stage records field_names path w
    = (Ok tt, with_file path (staging_text field_names records) w)
  /\ (forallb written_as_is (field_names :: map (record_cells field_names) records) = true ->
      staging_text field_names records = plain_staging_text py_str field_names records).
Proof.
  intros Hopen Hall Hfit. split.
  - now apply stage_succeeds.
  - apply csv_text_as_is.
Qed.

(** C8: a second call with the same arguments ends as the first did, in
    the same world: the file it leaves is the file the first call left,
    with nothing appended. *)
Theorem stage_twice (records : list dict) (field_names : list string) (path : string) (w : world) :
  stage records field_names path (snd (stage records field_names path w))
  = stage records field_names path w.
Proof.
  destruct (w_open_error w path) as [e|] eqn:Hopen.
  - unfold stage, bind. rewrite (open_w_fails _ _ _ Hopen). simpl.
    now rewrite (open_w_fails _ _ _ Hopen).
  - destruct (stage_any records field_names path w Hopen) as (res & t' & Hst).
    rewrite Hst. simpl snd. rewrite <- Hst.
    rewrite (stage_open records field_names path (with_file path t' w)) by assumption.
    rewrite with_file_twice. symmetry. now apply stage_open.
Qed.

(** C9: an error of the file system leaves [stage] as a raised
    exception: when the destination cannot be opened the error of [open]
    is raised and the world is as before; when the header and the first
    records do not fit the destination the error of the failing write is
    raised, whatever records follow; and no call, failing or not, adds a
    log record.  A call that succeeds returns no value (the unit). *)
Theorem stage_filesystem_error_propagates (records : list dict) (field_names : list string) (path : string) (w : world) :
  (forall e, w_open_error w path = Some e ->
     stage records field_names path w = (Raise (OSError e), w))
  /\ (forall good rest,
        records = good ++ rest ->
        w_open_error w path = None ->
        forallb (no_extra_keys field_names) good = true ->
        within_limit (w_size_limit w path)
          (String.length (staging_text field_names good)) = false ->
        exists w', stage records field_names path w = (Raise (OSError FileTooLarge), w'))
  /\ w_log (snd (stage records field_names path w)) = w_log w.
Proof.
  split; [| split].
  - intros e He. unfold stage, bind. now rewrite (open_w_fails _ _ _ He).
  - intros good rest -> Hopen Hall Hover.
    rewrite (stage_open _ _ _ _ Hopen). unfold bind, DictWriter_writeheader.
    rewrite (writerow_ok _ _ _ _ _ (header_no_extra_keys field_names)), header_cells.
    unfold staging_text in Hover. simpl csv_text in Hover.
    simpl String.append at 1 2.
    destruct (within_limit (w_size_limit w path)
                (String.length (csv_record field_names))) eqn:E1; [| eauto].
    destruct (writerows_overflow path field_names good rest _ w Hall E1 Hover) as [t' ->].
    eauto.
  - destruct (w_open_error w path) as [e|] eqn:Hopen.
    + unfold stage, bind. now rewrite (open_w_fails _ _ _ Hopen).
    + destruct (stage_any records field_names path w Hopen) as (res & t' & ->).
      reflexivity.
Qed.

End StageProperties.

Lemma stage_writes_format_witness :
  stage str_scalar [record_with "A" "By Jane Doe"; [("url", VStr "u|v"); ("author", VNone)]]
    flat_field_names "staging.csv" (quiet_world unreachable_server)
  = (Ok tt,
     with_file "staging.csv"
       ("headline|publication_date|author|news_desk|url" +:+ eol
        +:+ "A|2023-05-01T00:00:00Z|By Jane Doe|Science|https://x/a" +:+ eol
        +:+ "||||" +:+ quoted "u|v" +:+ eol)
       (quiet_world unreachable_server)).
Proof.
  apply (stage_writes_format str_scalar
           [record_with "A" "By Jane Doe"; [("url", VStr "u|v"); ("author", VNone)]]
           flat_field_names "staging.csv" (quiet_world unreachable_server));
    reflexivity.
Defined.

(** C6, as first stated, fails: a value that holds the delimiter is not
    written as it is but between quotes, so the line is not the values
    joined by the pipe; and a record with a key outside the field names
    makes the call raise [ValueError] after the header is written. *)
Lemma stage_quotes_and_rejects :
  stage str_scalar [[("headline", VStr "A|B"); ("url", VStr "u")]] ["headline"; "url"]
    "staging.csv" (quiet_world unreachable_server)
  = (Ok tt,
     with_file "staging.csv"
       ("headline|url" +:+ eol +:+ quoted "A|B" +:+ "|u" +:+ eol)
       (quiet_world unreachable_server))
  /\ plain_staging_text str_scalar ["headline"; "url"]
       [[("headline", VStr "A|B"); ("url", VStr "u")]]
     = "headline|url" +:+ eol +:+ "A|B|u" +:+ eol
  /\ "headline|url" +:+ eol +:+ quoted "A|B" +:+ "|u" +:+ eol
     <> "headline|url" +:+ eol +:+ "A|B|u" +:+ eol
  /\ stage str_scalar [[("headline", VStr "A"); ("section", VStr "s")]] ["headline"; "url"]
       "staging.csv" (quiet_world unreachable_server)
     = (Raise (ValueError ["section"]),
        with_file "staging.csv" ("headline|url" +:+ eol) (quiet_world unreachable_server)).
Proof.
  split; [reflexivity |]. split; [reflexivity |]. split; [discriminate | reflexivity].
Qed.

Lemma stage_filesystem_error_propagates_witness :
  stage str_scalar [record_with "A" "By Jane Doe"] flat_field_names "staging.csv"
    (read_only_world "staging.csv")
  = (Raise (OSError PermissionError), read_only_world "staging.csv")
  /\ exists w',
       stage str_scalar [record_with "A" "By Jane Doe"] flat_field_names "staging.csv"
         (limited_world "staging.csv" 60)
       = (Raise (OSError FileTooLarge), w').
Proof.
  split.
  - apply (proj1 (stage_filesystem_error_propagates str_scalar
                    [record_with "A" "By Jane Doe"] flat_field_names "staging.csv"
                    (read_only_world "staging.csv"))).
    reflexivity.
  - apply (proj1 (proj2 (stage_filesystem_error_propagates str_scalar
                           [record_with "A" "By Jane Doe"] flat_field_names "staging.csv"
                           (limited_world "staging.csv" 60)))
             [record_with "A" "By Jane Doe"] []);
      reflexivity.
Defined.

Section EndToEnd.

Variable nytas_transform_date : value -> value.
Variable nytas_transform_author : value -> value.
Variable py_str : value -> string.

Local Notation flatten_article := (flatten_article nytas_transform_date nytas_transform_author).

(** C3 (as amended): a well-formed article flattens to the record whose
    [headline] is [article.headline.main], [news_desk] is
    [article.news_desk] unchanged, [url] is [article.web_url],
    [publication_date] is the date transformer applied to
    [article.pub_date] and [author] the author transformer applied to
    [article.byline.original]; and when the five values are strings with
    no pipe, double quote, CR or LF in them, staging that record with the
    field names [headline, publication_date, author, news_desk, url]
    leaves a file of two lines, the pipe-joined names and the pipe-joined
    values, each ended by CR LF. *)
Theorem flatten_then_stage (article : value) (path : string) (w : world) :
  well_formed_article article = true ->
  exists main pub_date original news_desk web_url,
    lookup_path article ["headline"; "main"] = Some main
    /\ lookup_path article ["pub_date"] = Some pub_date
    /\ lookup_path article ["byline"; "original"] = Some original
    /\ lookup_path article ["news_desk"] = Some news_desk
    /\ lookup_path article ["web_url"] = Some web_url
    /\ flatten_article article
       = Ok (VDict [("headline", main);
                    ("publication_date", nytas_transform_date pub_date);
                    ("author", nytas_transform_author original);
                    ("news_desk", news_desk);
                    ("url", web_url)])
    /\ forall h d a n u : string,
         main = VStr h ->
         nytas_transform_date pub_date = VStr d ->
         nytas_transform_author original = VStr a ->
         news_desk = VStr n ->
         web_url = VStr u ->
         forallb plain [h; d; a; n; u] = true ->
         w_open_error w path = None ->
         within_limit (w_size_limit w path)
           (String.length ("headline|publication_date|author|news_desk|url" +:+ eol
                           +:+ join_fields [h; d; a; n; u] +:+ eol)) = true ->
         stage py_str
           [[("headline", main);
             ("publication_date", nytas_transform_date pub_date);
             ("author", nytas_transform_author original);
             ("news_desk", news_desk);
             ("url", web_url)]]
           flat_field_names path w
         = (Ok tt,
            with_file path
              ("headline|publication_date|author|news_desk|url" +:+ eol
               +:+ join_fields [h; d; a; n; u] +:+ eol) w).
Proof.
  intros Hwf.
  destruct (flatten_well_formed nytas_transform_date nytas_transform_author article Hwf)
    as (dd & hh & bb & main & pub_date & original & news_desk & web_url
        & -> & Eh & Em & Ep & Eb & Eo & En & Eu & Hflat).
  exists main, pub_date, original, news_desk, web_url.
  simpl lookup_path. rewrite Eh, Em, Ep, Eb, Eo, En, Eu.
  repeat (split; [reflexivity |]).
  split; [exact Hflat |].
  intros h d a n u -> Hd Ha -> -> Hplain Hopen Hfit.
  rewrite Hd, Ha.
  assert (Htext : staging_text py_str flat_field_names
                    [[("headline", VStr h); ("publication_date", VStr d);
                      ("author", VStr a); ("news_desk", VStr n); ("url", VStr u)]]
                  = "headline|publication_date|author|news_desk|url" +:+ eol
                    +:+ join_fields [h; d; a; n; u] +:+ eol).
  { unfold staging_text. rewrite csv_text_as_is.
    - simpl. now rewrite append_nil_r.
    - simpl map. simpl forallb. rewrite andb_true_r.
      change (written_as_is flat_field_names) with true. simpl andb.
      unfold written_as_is. rewrite Hplain. simpl. now rewrite andb_false_r. }
  rewrite (stage_succeeds py_str
             [[("headline", VStr h); ("publication_date", VStr d);
               ("author", VStr a); ("news_desk", VStr n); ("url", VStr u)]]
             flat_field_names path w Hopen).
  - now rewrite Htext.
  - reflexivity.
  - now rewrite Htext.
Qed.

End EndToEnd.

Lemma flatten_then_stage_witness :
  flatten_article as_is as_is article_a = Ok (VDict (record_with "A" "By Jane Doe"))
  /\ stage str_scalar [record_with "A" "By Jane Doe"] flat_field_names "staging.csv"
       (quiet_world unreachable_server)
     = (Ok tt,
        with_file "staging.csv"
          ("headline|publication_date|author|news_desk|url" +:+ eol
           +:+ "A|2023-05-01T00:00:00Z|By Jane Doe|Science|https://x/a" +:+ eol)
          (quiet_world unreachable_server)).
Proof.
  destruct (flatten_then_stage as_is as_is str_scalar article_a "staging.csv"
              (quiet_world unreachable_server) eq_refl)
    as (main & pub_date & original & news_desk & web_url
        & Hm & Hp & Ho & Hn & Hu & Hflat & Hstage).
  injection Hm as <-. injection Hp as <-. injection Ho as <-.
  injection Hn as <-. injection Hu as <-.
  split; [exact Hflat |].
  apply (Hstage "A" "2023-05-01T00:00:00Z" "By Jane Doe" "Science" "https://x/a");
    reflexivity.
Defined.

(** C3, as first stated, fails: the article is well formed, but its
    headline holds a pipe, so the second line of the file is not the
    pipe-joined values: the headline is written between quotes. *)
Lemma piped_headline_is_quoted :
  well_formed_article article_piped = true
  /\ flatten_article as_is as_is article_piped = Ok (VDict (record_with "A|B" "By Jane Doe"))
  /\ stage str_scalar [record_with "A|B" "By Jane Doe"] flat_field_names "staging.csv"
       (quiet_world unreachable_server)
     = (Ok tt,
        with_file "staging.csv"
          ("headline|publication_date|author|news_desk|url" +:+ eol
           +:+ quoted "A|B" +:+ "|2023-05-01T00:00:00Z|By Jane Doe|Science|https://x/a" +:+ eol)
          (quiet_world unreachable_server))
  /\ "headline|publication_date|author|news_desk|url" +:+ eol
     +:+ quoted "A|B" +:+ "|2023-05-01T00:00:00Z|By Jane Doe|Science|https://x/a" +:+ eol
     <> "headline|publication_date|author|news_desk|url" +:+ eol
        +:+ join_fields ["A|B"; "2023-05-01T00:00:00Z"; "By Jane Doe"; "Science"; "https://x/a"]
        +:+ eol.
Proof.
  split; [reflexivity |]. split; [reflexivity |]. split; [reflexivity | discriminate].
Qed.

(** ** Reading back what the writer wrote *)

Lemma read_chars_app (s1 s2 : string) (x : reading) :
  read_chars x (s1 +:+ s2)
  = match read_chars x s1 with
    | Some x' => read_chars x' s2
    | None => None
    end.
Proof.
  revert x. induction s1 as [|c s1 IH]; intros x; simpl; [reflexivity |].
  destruct (read_char x c); [apply IH | reflexivity].
Qed.

Lemma special_false (c : ascii) :
  special c = false ->
  Ascii.eqb c delimiter = false /\ Ascii.eqb c quotechar = false
  /\ Ascii.eqb c CR = false /\ Ascii.eqb c LF = false.
Proof.
  unfold special, lineterminator. simpl. intros H.
  apply orb_false_elim in H as [H Hnl]. apply orb_false_elim in H as [Hd Hq].
  apply orb_false_elim in Hnl as [Hcr Hnl]. apply orb_false_elim in Hnl as [Hlf _].
  auto.
Qed.

Ltac read_step :=
  unfold read_char, read_plain, end_line, parse_process_char, parse_start_field,
    parse_save_field, parse_add_char, set_state, is_newline; simpl.

Lemma read_plain_char_in_field (c : ascii) (f : string) (fs : list string) (rows : list (list string)) :
  special c = false ->
  read_char (Reading (Reader IN_FIELD f fs) InLine rows) c
  = Some (Reading (Reader IN_FIELD (addch f c) fs) InLine rows).
Proof.
  intros H. destruct (special_false c H) as (Hd & Hq & Hcr & Hlf).
  read_step. now rewrite Hlf, Hcr, Hd.
Qed.

Lemma read_plain_in_field (s f : string) (fs : list string) (rows : list (list string)) :
  needs_quotes s = false ->
  read_chars (Reading (Reader IN_FIELD f fs) InLine rows) s
  = Some (Reading (Reader IN_FIELD (f +:+ s) fs) InLine rows).
Proof.
  revert f. induction s as [|c s IH]; intros f H; simpl.
  - now rewrite append_nil_r.
  - simpl in H. apply orb_false_elim in H as [Hc Hs].
    rewrite (read_plain_char_in_field c f fs rows Hc), (IH _ Hs).
    now rewrite addch_append.
Qed.

Lemma read_plain_first_char (c : ascii) (st : parser_state) (ph : line_phase)
    (fs : list string) (rows : list (list string)) :
  special c = false ->
  at_field_start st ph ->
  read_char (Reading (Reader st EmptyString fs) ph rows) c
  = Some (Reading (Reader IN_FIELD (String c EmptyString) fs) InLine rows).
Proof.
  intros H [[-> | ->] Hph]; destruct (special_false c H) as (Hd & Hq & Hcr & Hlf);
    destruct ph; try congruence; read_step; now rewrite Hlf, Hcr, ?Hq, ?Hd.
Qed.

(** A bare field: the characters go into the field buffer. *)
Lemma read_bare_field (s : string) (st : parser_state) (ph : line_phase)
    (fs : list string) (rows : list (list string)) :
  needs_quotes s = false ->
  at_field_start st ph ->
  exists st' ph',
    read_chars (Reading (Reader st EmptyString fs) ph rows) s
    = Some (Reading (Reader st' s fs) ph' rows)
    /\ after_field st ph s st' ph'.
Proof.
  intros Hs Hstart. destruct s as [|c s].
  - exists st, ph. split; [reflexivity |]. right. right. auto.
  - simpl in Hs. apply orb_false_elim in Hs as [Hc Hs].
    exists IN_FIELD, InLine. split; [| left; auto].
    simpl. rewrite (read_plain_first_char c st ph fs rows Hc Hstart).
    now rewrite (read_plain_in_field s _ fs rows Hs).
Qed.

(** Inside a quoted field every character of the field, a quote written
    twice, goes into the field buffer, wherever the lines end. *)
Lemma read_quoted_char (c : ascii) (f : string) (ph : line_phase)
    (fs : list string) (rows : list (list string)) :
  exists ph',
    read_chars (Reading (Reader IN_QUOTED_FIELD f fs) ph rows)
      (double_quotes (String c EmptyString))
    = Some (Reading (Reader IN_QUOTED_FIELD (addch f c) fs) ph' rows).
Proof.
  simpl. destruct (Ascii.eqb c quotechar) eqn:Hq.
  - apply Ascii.eqb_eq in Hq. subst c.
    exists InLine. destruct ph; reflexivity.
  - destruct (Ascii.eqb c LF) eqn:Hlf.
    + apply Ascii.eqb_eq in Hlf. subst c.
      exists LineStart. destruct ph; reflexivity.
    + destruct (Ascii.eqb c CR) eqn:Hcr.
      * apply Ascii.eqb_eq in Hcr. subst c.
        exists AfterCR. destruct ph; reflexivity.
      * exists InLine. destruct ph; simpl; read_step; now rewrite ?Hlf, ?Hcr, ?Hq.
Qed.

Lemma double_quotes_cons (c : ascii) (s : string) :
  double_quotes (String c s) = double_quotes (String c EmptyString) +:+ double_quotes s.
Proof. simpl. destruct (Ascii.eqb c quotechar); reflexivity. Qed.

Lemma read_quoted_body (s f : string) (ph : line_phase)
    (fs : list string) (rows : list (list string)) :
  exists ph',
    read_chars (Reading (Reader IN_QUOTED_FIELD f fs) ph rows) (double_quotes s)
    = Some (Reading (Reader IN_QUOTED_FIELD (f +:+ s) fs) ph' rows).
Proof.
  revert f ph. induction s as [|c s IH]; intros f ph.
  - exists ph. simpl. now rewrite append_nil_r.
  - rewrite double_quotes_cons, read_chars_app.
    destruct (read_quoted_char c f ph fs rows) as [ph1 ->].
    destruct (IH (addch f c) ph1) as [ph2 ->].
    exists ph2. now rewrite addch_append.
Qed.

Lemma read_closing_quote (f : string) (ph : line_phase)
    (fs : list string) (rows : list (list string)) :
  read_char (Reading (Reader IN_QUOTED_FIELD f fs) ph rows) quotechar
  = Some (Reading (Reader QUOTE_IN_QUOTED_FIELD f fs) InLine rows).
Proof. destruct ph; reflexivity. Qed.

Lemma read_opening_quote (st : parser_state) (ph : line_phase)
    (fs : list string) (rows : list (list string)) :
  at_field_start st ph ->
  read_char (Reading (Reader st EmptyString fs) ph rows) quotechar
  = Some (Reading (Reader IN_QUOTED_FIELD EmptyString fs) InLine rows).
Proof. intros [[-> | ->] Hph]; destruct ph; try congruence; reflexivity. Qed.

Lemma read_quoted_field (s : string) (st : parser_state) (ph : line_phase)
    (fs : list string) (rows : list (list string)) :
  at_field_start st ph ->
  read_chars (Reading (Reader st EmptyString fs) ph rows) (quoted s)
  = Some (Reading (Reader QUOTE_IN_QUOTED_FIELD s fs) InLine rows).
Proof.
  intros Hstart. unfold quoted. cbn [read_chars].
  rewrite (read_opening_quote st ph fs rows Hstart).
  rewrite read_chars_app.
  destruct (read_quoted_body s EmptyString InLine fs rows) as [ph' ->].
  cbn [read_chars String.append]. now rewrite read_closing_quote.
Qed.

Lemma read_field (s : string) (st : parser_state) (ph : line_phase)
    (fs : list string) (rows : list (list string)) :
  at_field_start st ph ->
  exists st' ph',
    read_chars (Reading (Reader st EmptyString fs) ph rows) (quote_field s)
    = Some (Reading (Reader st' s fs) ph' rows)
    /\ after_field st ph (quote_field s) st' ph'.
Proof.
  intros Hstart. unfold quote_field. destruct (needs_quotes s) eqn:Hq.
  - exists QUOTE_IN_QUOTED_FIELD, InLine. split.
    + now apply read_quoted_field.
    + right. left. auto.
  - now apply read_bare_field.
Qed.

Lemma read_delimiter (st0 st : parser_state) (ph0 ph : line_phase) (t f : string)
    (fs : list string) (rows : list (list string)) :
  at_field_start st0 ph0 ->
  after_field st0 ph0 t st ph ->
  (t = EmptyString -> f = EmptyString) ->
  read_char (Reading (Reader st f fs) ph rows) delimiter
  = Some (Reading (Reader START_FIELD EmptyString (fs ++ [f])) InLine rows).
Proof.
  intros [Hst Hph] [[-> ->] | [[-> ->] | (Ht & -> & ->)]] Hf; try reflexivity.
  rewrite (Hf Ht).
  destruct Hst as [-> | ->]; destruct ph0; try congruence; reflexivity.
Qed.

Lemma read_line_end (st0 st : parser_state) (ph0 ph : line_phase) (t f : string)
    (fs : list string) (rows : list (list string)) :
  at_field_start st0 ph0 ->
  after_field st0 ph0 t st ph ->
  (t = EmptyString -> f = EmptyString /\ st0 = START_FIELD) ->
  read_chars (Reading (Reader st f fs) ph rows) lineterminator
  = Some (Reading parse_reset LineStart (rows ++ [fs ++ [f]])).
Proof.
  intros [Hst Hph] [[-> ->] | [[-> ->] | (Ht & -> & ->)]] Hf; try reflexivity.
  destruct (Hf Ht) as [-> ->].
  destruct ph0; try congruence; reflexivity.
Qed.

Lemma read_fields (cells : list string) (st : parser_state) (ph : line_phase)
    (fs : list string) (rows : list (list string)) :
  cells <> [] ->
  at_field_start st ph ->
  (st = START_RECORD -> cells <> [EmptyString]) ->
  read_chars (Reading (Reader st EmptyString fs) ph rows)
    (join_fields (map quote_field cells) +:+ lineterminator)
  = Some (Reading parse_reset LineStart (rows ++ [fs ++ cells])).
Proof.
  revert st ph fs. induction cells as [|c cells IH]; intros st ph fs Hne Hstart Hlone;
    [congruence |].
  destruct (read_field c st ph fs rows Hstart) as (st' & ph' & Hread & Hafter).
  destruct cells as [|c' cells].
  - simpl map. simpl join_fields. rewrite read_chars_app, Hread.
    apply (read_line_end st st' ph ph' (quote_field c)); try assumption.
    intros Ht. apply quote_field_empty in Ht. subst c. split; [reflexivity |].
    destruct Hstart as [[-> | ->] _]; [| reflexivity].
    exfalso. now apply Hlone.
  - change (map quote_field (c :: c' :: cells))
      with (quote_field c :: map quote_field (c' :: cells)).
    rewrite join_fields_cons by easy.
    rewrite append_assoc, read_chars_app, Hread.
    cbn [String.append read_chars].
    rewrite (read_delimiter st st' ph ph' (quote_field c) c fs rows Hstart Hafter)
      by apply quote_field_empty.
    rewrite IH; [| easy | split; [auto | discriminate] | discriminate].
    now rewrite <- app_assoc.
Qed.

(** One record of the file is read back as one row. *)
Lemma read_record (cells : list string) (rows : list (list string)) :
  read_chars (Reading parse_reset LineStart rows) (csv_record cells)
  = Some (Reading parse_reset LineStart (rows ++ [cells])).
Proof.
  unfold csv_record, parse_reset.
  destruct cells as [|c cells]; [reflexivity |].
  destruct c as [|a c]; [destruct cells as [|c' cells]; [reflexivity |] |];
    apply (read_fields _ START_RECORD LineStart [] rows);
    try easy; split; auto; discriminate.
Qed.

Lemma read_text (data rows : list (list string)) :
  read_chars (Reading parse_reset LineStart rows) (csv_text data)
  = Some (Reading parse_reset LineStart (rows ++ data)).
Proof.
  revert rows. induction data as [|cells data IH]; intros rows; simpl.
  - now rewrite app_nil_r.
  - rewrite read_chars_app, read_record, IH. now rewrite <- app_assoc.
Qed.

(** The reader gives back the rows of any text of the format. *)
Lemma csv_reader_csv_text (data : list (list string)) :
  csv_reader (csv_text data) = Some data.
Proof. unfold csv_reader. now rewrite read_text. Qed.

(** ** Round trip *)

Lemma list_string_eqb_refl (l : list string) : list_string_eqb l l = true.
Proof.
  induction l as [|s l IH]; simpl; [reflexivity |].
  now rewrite String.eqb_refl, IH.
Qed.

Lemma dict_get_key (d : dict) (k : string) (v : value) :
  dict_get d k = Some v -> In k (dict_keys d).
Proof.
  induction d as [|[k' v'] d IH]; simpl; [discriminate |].
  destruct (String.eqb k' k) eqn:E.
  - apply String.eqb_eq in E. auto.
  - intros H. right. apply filter_In. split; [auto |]. now rewrite E.
Qed.

Lemma no_extra_keys_get (names : list string) (d : dict) (k : string) :
  no_extra_keys names d = true -> ~ In k names -> dict_get d k = None.
Proof.
  unfold no_extra_keys. intros Hall Hk.
  destruct (dict_get d k) as [v|] eqn:E; [| reflexivity].
  exfalso. apply Hk. apply existsb_eqb_In.
  rewrite forallb_forall in Hall. apply Hall. eapply dict_get_key, E.
Qed.

Section RoundTrip.

Variable py_str : value -> string.

Local Notation record_cells := (record_cells py_str).
Local Notation staging_text := (staging_text py_str).
Local Notation stage := (stage py_str).
Local Notation read_back := (read_back py_str).

Lemma rows_to_records_cells (names : list string) (records : list dict) :
  rows_to_records names (map (record_cells names) records)
  = Some (map (read_back names) records).
Proof.
  induction records as [|r records IH]; simpl; [reflexivity |].
  unfold record_cells at 1. rewrite length_map, Nat.eqb_refl, IH.
  reflexivity.
Qed.

Lemma parse_staging_text (names : list string) (records : list dict) :
  parse_staging names (staging_text names records)
  = Some (map (read_back names) records).
Proof.
  unfold parse_staging, staging_text.
  rewrite csv_reader_csv_text, list_string_eqb_refl.
  apply rows_to_records_cells.
Qed.

Lemma flat_record_read_back (r : dict) :
  is_flat_record r = true -> same_fields r (read_back flat_field_names r).
Proof.
  unfold is_flat_record. intros H. apply andb_prop in H as [Hkeys Hstr].
  simpl in Hstr. unfold is_str in Hstr.
  destruct (dict_get r "headline") as [[| | |h| |]|] eqn:Eh; try discriminate.
  destruct (dict_get r "publication_date") as [[| | |d| |]|] eqn:Ed; try discriminate.
  destruct (dict_get r "author") as [[| | |a| |]|] eqn:Ea; try discriminate.
  destruct (dict_get r "news_desk") as [[| | |n| |]|] eqn:En; try discriminate.
  destruct (dict_get r "url") as [[| | |u| |]|] eqn:Eu; try discriminate.
  assert (Hback : read_back flat_field_names r
                  = [("headline", VStr h); ("publication_date", VStr d);
                     ("author", VStr a); ("news_desk", VStr n); ("url", VStr u)]).
  { unfold read_back, record_cells, flat_field_names. cbn [map].
    now rewrite Eh, Ed, Ea, En, Eu. }
  intros f. rewrite Hback. cbn [dict_get].
  destruct (String.eqb "headline" f) eqn:E1;
    [apply String.eqb_eq in E1; subst f; now rewrite Eh |].
  destruct (String.eqb "publication_date" f) eqn:E2;
    [apply String.eqb_eq in E2; subst f; now rewrite Ed |].
  destruct (String.eqb "author" f) eqn:E3;
    [apply String.eqb_eq in E3; subst f; now rewrite Ea |].
  destruct (String.eqb "news_desk" f) eqn:E4;
    [apply String.eqb_eq in E4; subst f; now rewrite En |].
  destruct (String.eqb "url" f) eqn:E5;
    [apply String.eqb_eq in E5; subst f; now rewrite Eu |].
  symmetry. apply (no_extra_keys_get flat_field_names); [assumption |].
  apply String.eqb_neq in E1, E2, E3, E4, E5.
  simpl. intros [H | [H | [H | [H | [H | []]]]]]; congruence.
Qed.

(** C7: N flat records (their keys among the five field names, each of
    the five bound to a string), staged with the field names [headline,
    publication_date, author, news_desk, url] to a destination that can
    be opened and written, and read back from the file with the same
    delimiter and field order, give N records that agree with the
    originals field for field, in the same order. *)
Theorem stage_parse_round_trip (records : list dict) (path : string) (w : world) :
  forallb is_flat_record records = true ->
  w_open_error w path = None ->
  within_limit (w_size_limit w path)
    (String.length (staging_text flat_field_names records)) = true ->
  exists parsed,
    parse_staging flat_field_names
      (file_text (snd (stage records flat_field_names path w)) path) = Some parsed
    /\ length parsed = length records
    /\ Forall2 same_fields records parsed.
Proof.
  intros Hflat Hopen Hfit.
  assert (Hkeys : forallb (no_extra_keys flat_field_names) records = true).
  { apply forallb_forall. intros r Hr. rewrite forallb_forall in Hflat.
    specialize (Hflat r Hr). unfold is_flat_record in Hflat.
    now apply andb_prop in Hflat as [Hk _]. }
  rewrite (stage_succeeds py_str records flat_field_names path w Hopen Hkeys Hfit).
  simpl snd. rewrite file_text_with_file, parse_staging_text.
  exists (map (read_back flat_field_names) records).
  split; [reflexivity |]. split; [apply length_map |].
  clear Hfit Hkeys. induction records as [|r records IH]; simpl; constructor.
  - apply flat_record_read_back. simpl in Hflat. now apply andb_prop in Hflat as [H _].
  - apply IH. simpl in Hflat. now apply andb_prop in Hflat as [_ H].
Qed.

End RoundTrip.

Lemma stage_parse_round_trip_witness :
  exists parsed,
    parse_staging flat_field_names
      (file_text
         (snd (stage str_scalar
                 [record_with "A|B" "By Jane Doe"; record_with "" (String LF "Jane, Doe")]
                 flat_field_names "staging.csv" (quiet_world unreachable_server)))
         "staging.csv") = Some parsed
    /\ length parsed = 2%nat
    /\ Forall2 same_fields
         [record_with "A|B" "By Jane Doe"; record_with "" (String LF "Jane, Doe")] parsed.
Proof.
  apply (stage_parse_round_trip str_scalar
           [record_with "A|B" "By Jane Doe"; record_with "" (String LF "Jane, Doe")]
           "staging.csv" (quiet_world unreachable_server));
    reflexivity.
Defined.

(* ===================================================================== *)
(** * Further properties *)
(* ===================================================================== *)

(** ** Archive fetcher *)

Lemma raise_for_status_passes (r : response) :
  request_raises (Responds r) = false -> raise_for_status r = Ok tt.
Proof.
  unfold request_raises, raise_for_status. intros H.
  destruct ((400 <=? status_code r)%Z && (status_code r <? 500)%Z) eqn:H4;
    [exfalso; lia |].
  destruct ((500 <=? status_code r)%Z && (status_code r <? 600)%Z) eqn:H5;
    [exfalso; lia | reflexivity].
Qed.

Lemma raise_for_status_outcome (r : response) :
  raise_for_status r = Ok tt
  \/ exists msg, raise_for_status r = Raise (RequestException HTTPError msg).
Proof.
  unfold raise_for_status.
  destruct (_ && _); [right; eauto |].
  destruct (_ && _); [right; eauto | left; reflexivity].
Qed.

(** X1: when the response has a status outside 400..599 and a JSON body,
    the call returns the decoded body as it is, logs nothing and has sent
    exactly one request; a body that is JSON [null] therefore gives
    [None], the value a failed fetch gives, with no log record. *)
Theorem extract_returns_body (api_key : string) (year month : Z) (w : world)
    (r : response) (v : value) :
  w_server w (length (w_sent w)) (archive_request api_key year month) = Responds r ->
  request_raises (Responds r) = false ->
  resp_body r = JsonBody v ->
  extract_nyt_archive api_key year month w = (Ok v, after_request api_key year month w).
Proof.
  intros Hserver Hstatus Hbody.
  unfold extract_nyt_archive, try_except, bind, requests_get, lift.
  unfold archive_request in Hserver. rewrite Hserver.
  rewrite (raise_for_status_passes r Hstatus).
  unfold response_json. now rewrite Hbody.
Qed.

Lemma extract_returns_body_witness :
  extract_nyt_archive "secret" 2023 5 (quiet_world null_body_server)
  = (Ok VNone, after_request "secret" 2023 5 (quiet_world null_body_server)).
Proof.
  apply (extract_returns_body "secret" 2023 5 (quiet_world null_body_server)
           (Response 200 "OK" (construct_nyt_archive_search_url 2023 5 default_version)
              (JsonBody VNone)) VNone);
    reflexivity.
Defined.

(** X2: an exception out of [requests.get] that is not a
    [RequestException] is not caught: the call raises it, after the one
    request, and logs nothing. *)
Theorem extract_lets_other_exceptions_through (api_key : string) (year month : Z)
    (w : world) (e : exn) :
  w_server w (length (w_sent w)) (archive_request api_key year month) = Fails e ->
  is_RequestException e = false ->
  extract_nyt_archive api_key year month w = (Raise e, after_request api_key year month w).
Proof.
  intros Hserver He.
  unfold extract_nyt_archive, try_except, bind, requests_get, lift.
  unfold archive_request in Hserver. rewrite Hserver. now rewrite He.
Qed.

Lemma extract_lets_other_exceptions_through_witness :
  extract_nyt_archive "secret" 2023 5 (quiet_world faulty_client)
  = (Raise TypeError, after_request "secret" 2023 5 (quiet_world faulty_client)).
Proof.
  apply (extract_lets_other_exceptions_through "secret" 2023 5
           (quiet_world faulty_client) TypeError);
    reflexivity.
Defined.


(** ** Filter / flatten *)

Lemma comprehension_first_failure {A B} (f : A -> result B) (good : list A) (bad : A)
    (rest : list A) (e : exn) :
  Forall (fun a => exists r, f a = Ok r) good ->
  f bad = Raise e ->
  comprehension f (good ++ bad :: rest) = Raise e.
Proof.
  intros Hgood Hbad. induction Hgood as [|a good [r Hr] _ IH]; simpl.
  - now rewrite Hbad.
  - now rewrite Hr, IH.
Qed.

Section MoreFilterProperties.

Variable nytas_transform_date : value -> value.
Variable nytas_transform_author : value -> value.

Local Notation flatten_article := (flatten_article nytas_transform_date nytas_transform_author).
Local Notation flatten_archive := (flatten_archive nytas_transform_date nytas_transform_author).
Local Notation filter_nyt_archive := (filter_nyt_archive nytas_transform_date nytas_transform_author).

(** Every way the flattening of one article can end. *)
Lemma flatten_cases (article : value) :
  match flatten_article article with
  | Ok r =>
      well_formed_article article = true
      /\ exists d, r = VDict d /\ dict_keys d = flat_field_names
  | Raise (KeyError key) =>
      In key required_keys /\ well_formed_article article = false
  | Raise TypeError => well_formed_article article = false
  | Raise _ => False
  end.
Proof.
  destruct article as [| | | | |d]; try reflexivity.
  unfold flatten_article, getitem, well_formed_article, sub_mapping, has_key.
  destruct (dict_get d "headline") as [[| | | | |h]|] eqn:Eh; simpl;
    try reflexivity; [| split; [simpl; auto | reflexivity]].
  destruct (dict_get h "main") as [main|] eqn:Em; simpl.
  2: { split; [simpl; auto |]. now destruct (dict_get d "byline") as [[| | | | |b]|]. }
  destruct (dict_get d "pub_date") as [pub_date|] eqn:Ep; simpl.
  2: { split; [simpl; auto |]. now destruct (dict_get d "byline") as [[| | | | |b]|]. }
  destruct (dict_get d "byline") as [[| | | | |b]|] eqn:Eb; simpl;
    try reflexivity; [| split; [simpl; auto 10 | reflexivity]].
  destruct (dict_get b "original") as [original|] eqn:Eo; simpl;
    [| split; [simpl; auto 10 | reflexivity]].
  destruct (dict_get d "news_desk") as [news_desk|] eqn:En; simpl;
    [| split; [simpl; auto 10 | reflexivity]].
  destruct (dict_get d "web_url") as [web_url|] eqn:Eu; simpl;
    [| split; [simpl; auto 10 | reflexivity]].
  split; [reflexivity |]. eexists. split; reflexivity.
Qed.

Lemma flatten_ok_iff (article : value) :
  (exists r, flatten_article article = Ok r) <-> well_formed_article article = true.
Proof.
  pose proof (flatten_cases article) as H. split.
  - intros [r Hr]. rewrite Hr in H. apply H.
  - intros Hwf. destruct (flatten_article article) as [r|[key| | | |]];
      [eauto | destruct H as [_ H] | | contradiction..]; congruence.
Qed.

(** Every way the comprehension over the articles can end. *)
Lemma comprehension_cases (items : list value) :
  match comprehension flatten_article items with
  | Ok rs =>
      forallb well_formed_article items = true
      /\ exists records,
           rs = map VDict records
           /\ length records = length items
           /\ Forall (fun d => dict_keys d = flat_field_names) records
  | Raise (KeyError key) =>
      In key required_keys /\ forallb well_formed_article items = false
  | Raise TypeError => forallb well_formed_article items = false
  | Raise _ => False
  end.
Proof.
  induction items as [|a items IH]; simpl.
  - split; [reflexivity |]. exists []. repeat split. constructor.
  - pose proof (flatten_cases a) as Ha.
    destruct (flatten_article a) as [r|e]; simpl.
    + destruct Ha as [-> (d & -> & Hkeys)]. simpl.
      destruct (comprehension flatten_article items) as [rs|e]; simpl.
      * destruct IH as [-> (records & -> & Hlen & Hall)].
        split; [reflexivity |]. exists (d :: records).
        repeat split; [simpl; now rewrite Hlen | now constructor].
      * exact IH.
    + destruct e as [key| | | |]; try exact Ha.
      * destruct Ha as [Hin ->]. auto.
      * now rewrite Ha.
Qed.

(** Every way the evaluation of the [try] block can end. *)
Lemma flatten_archive_cases (res : value) :
  match flatten_archive res with
  | Ok v =>
      exists records,
        v = VList (map VDict records)
        /\ Forall (fun d => dict_keys d = flat_field_names) records
  | Raise (KeyError key) => In key ("response" :: "docs" :: required_keys)
  | Raise TypeError => True
  | Raise _ => False
  end.
Proof.
  unfold flatten_archive.
  destruct res as [| | | | |d]; try exact I. simpl.
  destruct (dict_get d "response") as [[| | | | |r]|]; simpl; try exact I; [| auto].
  destruct (dict_get r "docs") as [docs|]; simpl; [| auto].
  destruct (py_iter docs) as [items|e] eqn:Hiter; simpl.
  - pose proof (comprehension_cases items) as H.
    destruct (comprehension flatten_article items) as [rs|[key| | | |]]; simpl;
      try exact H; try exact I.
    + destruct H as [_ (records & -> & _ & Hall)]. eauto.
    + destruct H as [H _]. simpl. auto.
  - destruct docs; simpl in Hiter; try discriminate; injection Hiter as <-; exact I.
Qed.

(** X4: an input that is not a mapping (the [None] of a failed fetch, a
    list, a string, a number) makes the call raise [TypeError]; nothing
    is logged and nothing is returned. *)
Theorem filter_rejects_non_mapping (res : value) (w : world) :
  is_mapping res = false ->
  filter_nyt_archive res w = (Raise TypeError, w).
Proof.
  intros H. rewrite filter_from_flatten.
  destruct res; try discriminate; reflexivity.
Qed.

(** X5: every call ends in one of three ways: it returns a list of
    records, each a mapping with exactly the keys [headline],
    [publication_date], [author], [news_desk], [url] in this order, and
    leaves the world as it was; or it returns [None] and logs one ERROR
    record naming [response], [docs] or a required key; or it raises
    [TypeError] and leaves the world as it was. *)
Theorem filter_outcomes (res : value) (w : world) :
  (exists records,
     filter_nyt_archive res w = (Ok (VList (map VDict records)), w)
     /\ Forall (fun d => dict_keys d = flat_field_names) records)
  \/ (exists key,
        In key ("response" :: "docs" :: required_keys)
        /\ filter_nyt_archive res w = schema_mismatch key w)
  \/ filter_nyt_archive res w = (Raise TypeError, w).
Proof.
  rewrite filter_from_flatten.
  pose proof (flatten_archive_cases res) as H.
  destruct (flatten_archive res) as [v|[key| | | |]]; try contradiction.
  - left. destruct H as (records & -> & Hall). eauto.
  - right. left. eauto.
  - right. right. reflexivity.
Qed.

(** X6: a payload whose [docs] has no item (an empty array; an empty
    mapping or an empty string in its place as well) gives the empty
    list, not [None], and nothing is logged. *)
Theorem filter_empty_docs (res response docs : value) (w : world) :
  getitem res "response" = Ok response ->
  getitem response "docs" = Ok docs ->
  py_iter docs = Ok [] ->
  filter_nyt_archive res w = (Ok (VList []), w).
Proof.
  intros Hres Hdocs Hiter. rewrite filter_from_flatten.
  unfold flatten_archive. rewrite Hres. simpl. rewrite Hdocs. simpl.
  now rewrite Hiter.
Qed.

(** X7: the first article whose flattening raises decides the call,
    whatever articles follow it: a [KeyError] gives [None] with the key
    logged, any other exception is raised with nothing logged. *)
Theorem filter_first_failure (res response : value) (good : list value) (bad : value)
    (rest : list value) (e : exn) (w : world) :
  getitem res "response" = Ok response ->
  getitem response "docs" = Ok (VList (good ++ bad :: rest)) ->
  forallb well_formed_article good = true ->
  flatten_article bad = Raise e ->
  filter_nyt_archive res w
  = match e with
    | KeyError key => schema_mismatch key w
    | _ => (Raise e, w)
    end.
Proof.
  intros Hres Hdocs Hgood Hbad. rewrite filter_from_flatten.
  unfold flatten_archive. rewrite Hres. simpl. rewrite Hdocs. simpl.
  rewrite (comprehension_first_failure _ good bad rest e); [now destruct e | | assumption].
  apply List.Forall_forall. intros a Ha. apply flatten_ok_iff.
  rewrite forallb_forall in Hgood. auto.
Qed.

(** X8: on a payload with a list under [response.docs], the call returns
    a list exactly when every article is well formed. *)
Theorem filter_list_iff_well_formed (res response : value) (docs : list value) (w : world) :
  getitem res "response" = Ok response ->
  getitem response "docs" = Ok (VList docs) ->
  (exists records, filter_nyt_archive res w = (Ok (VList records), w))
  <-> forallb well_formed_article docs = true.
Proof.
  intros Hres Hdocs. rewrite filter_from_flatten.
  unfold flatten_archive. rewrite Hres. simpl. rewrite Hdocs. simpl.
  pose proof (comprehension_cases docs) as H.
  destruct (comprehension flatten_article docs) as [rs|[key| | | |]]; simpl;
    try contradiction.
  - destruct H as [H _]. split; [auto | eauto].
  - destruct H as [_ H]. split; [intros [records Hr]; discriminate | congruence].
  - split; [intros [records Hr]; discriminate | congruence].
Qed.

(** X9: a fetch that fails and the filter do not compose: the fetch
    returns [None], and the filter called on it raises [TypeError]. *)
Theorem failed_fetch_breaks_filter (api_key : string) (year month : Z) (w : world) :
  request_raises (w_server w (length (w_sent w)) (archive_request api_key year month)) = true ->
  exists w1,
    extract_nyt_archive api_key year month w = (Ok VNone, w1)
    /\ filter_nyt_archive VNone w1 = (Raise TypeError, w1).
Proof.
  unfold extract_nyt_archive, try_except, bind, requests_get, lift, archive_request.
  destruct (w_server w _ _) as [r|e]; simpl.
  - intros Hst. destruct (raise_for_status_outcome r) as [Hok | [msg ->]]; simpl.
    + exfalso. unfold raise_for_status in Hok.
      destruct ((400 <=? status_code r)%Z && (status_code r <? 500)%Z) eqn:H4;
        [discriminate |].
      destruct ((500 <=? status_code r)%Z && (status_code r <? 600)%Z) eqn:H5;
        [discriminate | lia].
    + eexists. split; reflexivity.
  - destruct e; simpl; try discriminate. intros _. eexists. split; reflexivity.
Qed.

End MoreFilterProperties.

Lemma filter_rejects_non_mapping_witness :
  filter_nyt_archive as_is as_is (VList [article_a]) (quiet_world unreachable_server)
  = (Raise TypeError, quiet_world unreachable_server).
Proof.
  apply (filter_rejects_non_mapping as_is as_is (VList [article_a])
           (quiet_world unreachable_server)).
  reflexivity.
Defined.

Lemma filter_empty_docs_witness :
  filter_nyt_archive as_is as_is (VDict [("response", VDict [("docs", VDict [])])])
    (quiet_world unreachable_server)
  = (Ok (VList []), quiet_world unreachable_server).
Proof.
  apply (filter_empty_docs as_is as_is
           (VDict [("response", VDict [("docs", VDict [])])])
           (VDict [("docs", VDict [])]) (VDict []) (quiet_world unreachable_server));
    reflexivity.
Defined.

Lemma filter_first_failure_witness :
  filter_nyt_archive as_is as_is
    (payload [article_a; article_null_byline; article_no_original])
    (quiet_world unreachable_server)
  = (Raise TypeError, quiet_world unreachable_server).
Proof.
  apply (filter_first_failure as_is as_is
           (payload [article_a; article_null_byline; article_no_original])
           (VDict [("docs", VList [article_a; article_null_byline; article_no_original])])
           [article_a] article_null_byline [article_no_original] TypeError
           (quiet_world unreachable_server));
    reflexivity.
Defined.

Lemma filter_list_iff_well_formed_witness :
  (exists records,
     filter_nyt_archive as_is as_is (payload [article_a; article_piped])
       (quiet_world unreachable_server)
     = (Ok (VList records), quiet_world unreachable_server))
  <-> forallb well_formed_article [article_a; article_piped] = true.
Proof.
  apply (filter_list_iff_well_formed as_is as_is (payload [article_a; article_piped])
           (VDict [("docs", VList [article_a; article_piped])])
           [article_a; article_piped] (quiet_world unreachable_server));
    reflexivity.
Defined.

Lemma failed_fetch_breaks_filter_witness :
  exists w1,
    extract_nyt_archive "secret" 2023 13 (quiet_world not_found_server) = (Ok VNone, w1)
    /\ filter_nyt_archive as_is as_is VNone w1 = (Raise TypeError, w1).
Proof.
  apply (failed_fetch_breaks_filter as_is as_is "secret" 2023 13
           (quiet_world not_found_server)).
  reflexivity.
Defined.

(** ** Stager *)

Lemma forallb_filter {A} (P Q : A -> bool) (l : list A) :
  forallb P l = true -> forallb P (List.filter Q l) = true.
Proof.
  induction l as [|x l IH]; simpl; [reflexivity |].
  intros H. apply andb_prop in H as [Hx Hl].
  destruct (Q x); simpl; [rewrite Hx |]; auto.
Qed.

Lemma csv_text_inj (data1 data2 : list (list string)) :
  csv_text data1 = csv_text data2 -> data1 = data2.
Proof.
  intros H. apply (f_equal csv_reader) in H.
  rewrite !csv_reader_csv_text in H. now injection H.
Qed.


Section MoreStageProperties.

Variable py_str : value -> string.

Local Notation field_text := (field_text py_str).
Local Notation record_cells := (record_cells py_str).
Local Notation staging_text := (staging_text py_str).
Local Notation same_cells := (same_cells py_str).
Local Notation DictWriter_writerow := (DictWriter_writerow py_str).
Local Notation DictWriter_writerows := (DictWriter_writerows py_str).
Local Notation DictWriter_writeheader := (DictWriter_writeheader py_str).
Local Notation stage := (stage py_str).





(** X12: the file tells the rows apart: when two lists of records
    staged under the same field names leave the same text, they have the
    same cells, record by record and field by field. *)
Theorem staged_text_determines_cells (records1 records2 : list dict)
    (field_names : list string) (path : string) (w : world) :
  w_open_error w path = None ->
  forallb (no_extra_keys field_names) records1 = true ->
  forallb (no_extra_keys field_names) records2 = true ->
  within_limit (w_size_limit w path)
    (String.length (staging_text field_names records1)) = true ->
  within_limit (w_size_limit w path)
    (String.length (staging_text field_names records2)) = true ->
  file_text (snd (stage records1 field_names path w)) path
    = file_text (snd (stage records2 field_names path w)) path ->
  same_cells field_names records1 records2.
Proof.
  intros Hopen H1 H2 Hfit1 Hfit2.
  rewrite (stage_succeeds py_str records1 field_names path w Hopen H1 Hfit1).
  rewrite (stage_succeeds py_str records2 field_names path w Hopen H2 Hfit2).
  simpl snd. rewrite !file_text_with_file. unfold staging_text.
  intros H. apply csv_text_inj in H. now injection H.
Qed.

Lemma record_cells_empty_value (names : list string) (r : dict) (k : string) (v : value) :
  dict_get r k = None ->
  field_text v = EmptyString ->
  record_cells names ((k, v) :: r) = record_cells names r.
Proof.
  intros Hk Hv. unfold record_cells. apply map_ext. intros key. cbn [dict_get].
  destruct (String.eqb k key) eqn:E; [| reflexivity].
  apply String.eqb_eq in E. subst key. rewrite Hk.
  transitivity (field_text v); [reflexivity | now rewrite Hv].
Qed.

Lemma no_extra_keys_cons (names : list string) (r : dict) (k : string) (v : value) :
  In k names ->
  no_extra_keys names r = true ->
  no_extra_keys names ((k, v) :: r) = true.
Proof.
  unfold no_extra_keys. intros Hk Hr. simpl.
  rewrite (proj2 (existsb_eqb_In k names) Hk). simpl.
  now apply forallb_filter.
Qed.

(** X13: a field bound to [None], a field bound to the empty string and
    a field that the record does not have are written alike: staging a
    record with or without such a binding leaves the same file. *)
Theorem stage_empty_values_alike (before after : list dict) (r : dict) (k : string)
    (v : value) (field_names : list string) (path : string) (w : world) :
  v = VNone \/ v = VStr EmptyString ->
  In k field_names ->
  dict_get r k = None ->
  w_open_error w path = None ->
  forallb (no_extra_keys field_names) (before ++ r :: after) = true ->
  within_limit (w_size_limit w path)
    (String.length (staging_text field_names (before ++ r :: after))) = true ->
  stage (before ++ ((k, v) :: r) :: after) field_names path w
  = stage (before ++ r :: after) field_names path w.
Proof.
  intros Hv Hk Hr Hopen Hkeys Hfit.
  assert (Hcells : map (record_cells field_names) (before ++ ((k, v) :: r) :: after)
                   = map (record_cells field_names) (before ++ r :: after)).
  { rewrite !map_app. simpl. rewrite record_cells_empty_value; try assumption.
    - reflexivity.
    - destruct Hv as [-> | ->]; reflexivity. }
  assert (Htext : staging_text field_names (before ++ ((k, v) :: r) :: after)
                  = staging_text field_names (before ++ r :: after)).
  { unfold staging_text. now rewrite Hcells. }
  rewrite (stage_succeeds py_str (before ++ r :: after) field_names path w Hopen Hkeys Hfit).
  rewrite (stage_succeeds py_str (before ++ ((k, v) :: r) :: after) field_names path w Hopen).
  - now rewrite Htext.
  - rewrite forallb_app in *. apply andb_prop in Hkeys as [Hb Hra].
    simpl in Hra. apply andb_prop in Hra as [Hrk Ha].
    rewrite Hb. simpl. rewrite Ha, andb_true_r.
    now apply no_extra_keys_cons.
  - now rewrite Htext.
Qed.

End MoreStageProperties.



Lemma staged_text_determines_cells_witness :
  same_cells str_scalar flat_field_names
    [record_with "A|B" "By Jane Doe"]
    [[("url", VStr "https://x/a"); ("news_desk", VStr "Science");
      ("author", VStr "By Jane Doe"); ("publication_date", VStr "2023-05-01T00:00:00Z");
      ("headline", VStr "A|B")]].
Proof.
  apply (staged_text_determines_cells str_scalar
           [record_with "A|B" "By Jane Doe"]
           [[("url", VStr "https://x/a"); ("news_desk", VStr "Science");
             ("author", VStr "By Jane Doe");
             ("publication_date", VStr "2023-05-01T00:00:00Z");
             ("headline", VStr "A|B")]]
           flat_field_names "staging.csv" (quiet_world unreachable_server));
    reflexivity.
Defined.

Lemma stage_empty_values_alike_witness :
  stage str_scalar [[("author", VNone); ("headline", VStr "A")]] flat_field_names
    "staging.csv" (quiet_world unreachable_server)
  = stage str_scalar [[("headline", VStr "A")]] flat_field_names
      "staging.csv" (quiet_world unreachable_server).
Proof.
  apply (stage_empty_values_alike str_scalar [] [] [("headline", VStr "A")] "author" VNone
           flat_field_names "staging.csv" (quiet_world unreachable_server));
    try reflexivity.
  - left. reflexivity.
  - simpl. auto.
Defined.

(** ** Filter, then stage *)

Lemma as_records_map (records : list dict) :
  as_records (map VDict records) = Some records.
Proof.
  induction records as [|d records IH]; simpl; [reflexivity | now rewrite IH].
Qed.

Section FilterThenStage.

Variable nytas_transform_date : value -> value.
Variable nytas_transform_author : value -> value.
Variable py_str : value -> string.

Local Notation filter_nyt_archive := (filter_nyt_archive nytas_transform_date nytas_transform_author).

(** X14: the list the filter returns can be staged with the field names
    [headline, publication_date, author, news_desk, url]: its items are
    mappings with exactly these keys, so no record is rejected, and a
    destination that can be opened and written receives the header and
    one record per item. *)
Theorem filtered_records_stage (res : value) (items : list value) (w : world) :
  fst (filter_nyt_archive res w) = Ok (VList items) ->
  exists records,
    records_of (VList items) = Some records
    /\ length records = length items
    /\ forall path w1,
         w_open_error w1 path = None ->
         within_limit (w_size_limit w1 path)
           (String.length (staging_text py_str flat_field_names records)) = true ->
         stage py_str records flat_field_names path w1
         = (Ok tt, with_file path (staging_text py_str flat_field_names records) w1).
Proof.
  rewrite filter_from_flatten.
  pose proof (flatten_archive_cases nytas_transform_date nytas_transform_author res) as H.
  destruct (flatten_archive _ _ res) as [v|[key| | | |]]; simpl; try discriminate.
  intros Hv. injection Hv as ->.
  destruct H as (records & Hitems & Hkeys). injection Hitems as ->.
  exists records. split; [apply as_records_map |]. split; [now rewrite length_map |].
  intros path w1 Hopen Hfit.
  apply stage_succeeds; try assumption.
  apply forallb_forall. intros d Hd.
  rewrite List.Forall_forall in Hkeys. unfold no_extra_keys.
  now rewrite (Hkeys d Hd).
Qed.

End FilterThenStage.

Lemma filtered_records_stage_witness :
  exists records,
    records_of (VList [VDict (record_with "A" "By Jane Doe")]) = Some records
    /\ length records = 1%nat
    /\ forall path w1,
         w_open_error w1 path = None ->
         within_limit (w_size_limit w1 path)
           (String.length (staging_text str_scalar flat_field_names records)) = true ->
         stage str_scalar records flat_field_names path w1
         = (Ok tt, with_file path (staging_text str_scalar flat_field_names records) w1).
Proof.
  apply (filtered_records_stage as_is as_is str_scalar (payload [article_a])
           [VDict (record_with "A" "By Jane Doe")] (quiet_world unreachable_server)).
  reflexivity.
Defined.

(** ** URL builder: no two queries share a URL *)

Lemma append_inv_head (s x y : string) : s +:+ x = s +:+ y -> x = y.
Proof.
  induction s as [|c s IH]; simpl; [auto |].
  intros H. injection H as H. auto.
Qed.

Lemma string_mem_append (c : ascii) (x y : string) :
  string_mem c (x +:+ y) = string_mem c x || string_mem c y.
Proof.
  induction x as [|c' x IH]; simpl; [reflexivity |].
  now rewrite IH, orb_assoc.
Qed.

(** A text is cut in one way only at the last occurrence of a character. *)
Lemma split_at_last (c : ascii) (a a' b b' : string) :
  string_mem c b = false ->
  string_mem c b' = false ->
  a +:+ String c b = a' +:+ String c b' ->
  a = a' /\ b = b'.
Proof.
  intros Hb Hb'. revert a'. induction a as [|x a IH]; intros [|x' a'] H; simpl in H.
  - injection H as H. auto.
  - injection H as Hx H. exfalso. subst b.
    rewrite string_mem_append in Hb. simpl in Hb.
    rewrite Ascii.eqb_refl in Hb. simpl in Hb.
    rewrite orb_true_r in Hb. discriminate.
  - injection H as Hx H. exfalso. subst b'.
    rewrite string_mem_append in Hb'. simpl in Hb'.
    rewrite Ascii.eqb_refl in Hb'. simpl in Hb'.
    rewrite orb_true_r in Hb'. discriminate.
  - injection H as Hx H. destruct (IH _ H) as [-> ->]. now subst.
Qed.

Lemma digits_no_punctuation (d : uint) :
  string_mem "/" (NilEmpty.string_of_uint d) = false
  /\ string_mem "." (NilEmpty.string_of_uint d) = false.
Proof. induction d; simpl; auto. Qed.

Lemma str_int_no_punctuation (z : Z) :
  string_mem "/" (str_int z) = false /\ string_mem "." (str_int z) = false.
Proof.
  unfold str_int, NilZero.string_of_int, NilZero.string_of_uint.
  destruct (Z.to_int z) as [[| | | | | | | | | |]|[| | | | | | | | | |]]; simpl;
    try (split; reflexivity); apply digits_no_punctuation.
Qed.

Lemma str_int_inj (z z' : Z) : str_int z = str_int z' -> z = z'.
Proof.
  intros H. apply (f_equal parse_int) in H.
  rewrite !parse_int_str_int in H. now injection H.
Qed.

(** X15: the URL tells the query: two calls return the same URL only
    when they have the same version, year and month, whatever text the
    version is. *)
Theorem url_injective (year month year' month' : Z) (version version' : string) :
  construct_nyt_archive_search_url year month version
    = construct_nyt_archive_search_url year' month' version' ->
  version = version' /\ year = year' /\ month = month'.
Proof.
  unfold construct_nyt_archive_search_url. intros H.
  apply append_inv_head in H.
  assert (Hshape : forall v y m,
             v +:+ "/" +:+ str_int y +:+ "/" +:+ str_int m +:+ ".json"
             = (v +:+ String "/" (str_int y))
                 +:+ String "/" (str_int m +:+ String "." "json")).
  { intros v y m. now rewrite append_assoc. }
  rewrite !Hshape in H.
  assert (Htail : forall m, string_mem "/" (str_int m +:+ String "." "json") = false).
  { intros m. rewrite string_mem_append.
    now rewrite (proj1 (str_int_no_punctuation m)). }
  apply split_at_last in H as [Hvy Hm]; try apply Htail.
  apply split_at_last in Hvy as [Hv Hy]; try apply str_int_no_punctuation.
  apply split_at_last in Hm as [Hm _]; try reflexivity.
  split; [assumption |]. split; now apply str_int_inj.
Qed.

Lemma url_injective_witness :
  "v1" = "v1" /\ 2023%Z = 2023%Z /\ 5%Z = 5%Z.
Proof.
  apply (url_injective 2023 5 2023 5 "v1" "v1"). reflexivity.
Defined.

(** ** Database connection helper *)

